(** * smac_planner: the SE2 node, its motion tables and the planner facade

    A shallow embedding of [smac_planner/src/node_se2.cpp] and
    [smac_planner/src/smac_planner.cpp].

    Number model.  The C++ code computes in [float] and [double].  The
    motion tables need [sqrt], [asin], [sin], [cos] and [ceil]; they are
    embedded over the real numbers [R], every floating-point value standing
    for the real it approximates (rounding, infinities and NaN are outside
    the model).  The facade only adds, multiplies, divides and compares; it
    is embedded over the rationals [Q], which keeps it executable.  Machine
    integers are [Z] with the conversions written out. *)

From Stdlib Require Import ZArith QArith Qround Reals Lra Lia String List.
From stdpp Require Import base gmap strings.
From Stdlib Require Lqa.
Import ListNotations.

(** ** The motion-model enumeration ([MotionModel::...]) *)

Module MotionModel.
Inductive t : Set :=
| UNKNOWN
| VON_NEUMANN
| MOORE
| DUBIN
| REEDS_SHEPP
| BALKCOM_MASON.
End MotionModel.

(** ** node_se2.cpp: [NodeSE2] and its validity check *)

Module Node.
Local Open Scope Z_scope.

(** [std::numeric_limits<float>::max()], an integer. *)
Definition FLT_MAX : Z := (2 ^ 24 - 1) * 2 ^ 104.

(** The fields that the constructor and [reset] initialise.  [_cell_cost]
    is a [float] obtained from an [unsigned char], hence an integer;
    [parent] is a back-pointer, modelled by the parent's index. *)
Record NodeSE2 : Set := mkNodeSE2 {
  parent : option Z;
  _cell_cost : Z;
  _accumulated_cost : Z;
  _index : Z;
  _was_visited : bool;
  _is_queued : bool
}.

(** [NodeSE2::NodeSE2(cost_in, index)] *)
Definition new (cost_in index : Z) : NodeSE2 :=
  {| parent := None;
     _cell_cost := cost_in;
     _accumulated_cost := FLT_MAX;
     _index := index;
     _was_visited := false;
     _is_queued := false |}.

(** [NodeSE2::reset(cost, index)] overwrites every field. *)
Definition reset (_ : NodeSE2) (cost index : Z) : NodeSE2 := new cost index.

Definition getCost (n : NodeSE2) : Z := _cell_cost n.

Section Validity.
(** The cost sentinels live in a header that is not part of the
    sources at hand; the check is embedded for arbitrary values. *)
Variables OCCUPIED INSCRIBED UNKNOWN : Z.

(** [NodeSE2::isNodeValid(traverse_unknown)] *)
Definition isNodeValid (n : NodeSE2) (traverse_unknown : bool) : bool :=
  let cost := getCost n in
  if (cost =? OCCUPIED) || (cost =? INSCRIBED) then false
  else if (cost =? UNKNOWN) && negb traverse_unknown then false
  else true.
End Validity.
End Node.

(** ** node_se2.cpp: [MotionTable] *)

Module Motion.
Local Open Scope R_scope.

(** A [Pose] of the table: [(_x, _y, _theta)]. *)
Record Pose : Type := mkPose { _x : R; _y : R; _theta : R }.

Record MotionTable : Type := mkMotionTable {
  projections : list Pose;
  size_x : Z;
  num_angle_quantization : Z
}.

(** [ceil], as an integer. *)
Definition ceilR (x : R) : Z := (- Int_part (- x))%Z.

Definition sqrt_2 : R := sqrt 2.

(** The turning angle shared by [initDubin] and [initReedsShepp]: the
    angle whose chord is [sqrt 2], moved up to a multiple of the bin. *)
Definition turning_angle (num_angle_quantization_in : Z)
                         (min_turning_radius : R) : R :=
  let angle := 2 * asin (sqrt_2 / (2 * min_turning_radius)) in
  let bin_size := 2 * PI / IZR num_angle_quantization_in in
  if Rlt_dec angle bin_size then bin_size
  else if Rgt_dec angle bin_size then
    let increments := ceilR (angle / bin_size) in
    bin_size * IZR increments
  else angle.

Definition delta_x (min_turning_radius angle : R) : R :=
  min_turning_radius * sin angle.

Definition delta_y (min_turning_radius angle : R) : R :=
  (min_turning_radius * cos angle) - min_turning_radius.

(** [MotionTable::initDubin]; every field of the table is overwritten. *)
Definition initDubin (size_x_in num_angle_quantization_in : Z)
                     (min_turning_radius : R) : MotionTable :=
  let angle := turning_angle num_angle_quantization_in min_turning_radius in
  let dx := delta_x min_turning_radius angle in
  let dy := delta_y min_turning_radius angle in
  {| projections :=
       [ mkPose sqrt_2 0 0;          (* Forward *)
         mkPose dx dy angle;         (* Left *)
         mkPose dx (- dy) (- angle)  (* Right *) ];
     size_x := size_x_in;
     num_angle_quantization := num_angle_quantization_in |}.

(** [MotionTable::initReedsShepp] *)
Definition initReedsShepp (size_x_in num_angle_quantization_in : Z)
                          (min_turning_radius : R) : MotionTable :=
  let angle := turning_angle num_angle_quantization_in min_turning_radius in
  let dx := delta_x min_turning_radius angle in
  let dy := delta_y min_turning_radius angle in
  {| projections :=
       [ mkPose sqrt_2 0 0;              (* Forward *)
         mkPose dx dy angle;             (* Forward + Left *)
         mkPose dx (- dy) (- angle);     (* Forward + Right *)
         mkPose (- sqrt_2) 0 0;          (* Backward *)
         mkPose (- dx) dy angle;         (* Backward + Left *)
         mkPose (- dx) (- dy) (- angle)  (* Backward + Right *) ];
     size_x := size_x_in;
     num_angle_quantization := num_angle_quantization_in |}.

(** [MotionTable::initBalkcomMason] *)
Definition initBalkcomMason (size_x_in num_angle_quantization_in : Z)
  : MotionTable :=
  let delta_angle := 2 * PI / IZR num_angle_quantization_in in
  {| projections :=
       [ mkPose sqrt_2 0 0;                  (* Forward *)
         mkPose (- sqrt_2) 0 0;              (* Backward *)
         mkPose 0 0 delta_angle;             (* Spin left *)
         mkPose 0 0 (- delta_angle);         (* Spin right *)
         mkPose sqrt_2 0 delta_angle;        (* Spin left + Forward *)
         mkPose (- sqrt_2) 0 delta_angle;    (* Spin left + Backward *)
         mkPose sqrt_2 0 (- delta_angle);    (* Spin right + Forward *)
         mkPose (- sqrt_2) 0 (- delta_angle) (* Spin right + Backward *) ];
     size_x := size_x_in;
     num_angle_quantization := num_angle_quantization_in |}.

(** [Pose + Pose], component-wise. *)
Definition pose_add (p q : Pose) : Pose :=
  mkPose (_x p + _x q) (_y p + _y q) (_theta p + _theta q).

(** [MotionTable::getProjection]; reading past the end of [projections]
    is undefined in the source and [None] here. *)
Definition getProjection (t : MotionTable) (node_pose : Pose)
                         (motion_index : nat) : option Pose :=
  pose_add node_pose <$> projections t !! motion_index.

(** [MotionTable::getProjections] *)
Definition getProjections (t : MotionTable) (node_pose : Pose) : list Pose :=
  map (pose_add node_pose) (projections t).

(** [NodeSE2::initMotionModel]: the table for the three SE2 models, a
    [std::runtime_error] (its message on the left) for anything else. *)
Definition initMotionModel (motion_model : MotionModel.t)
                           (size_x num_angle_quantization : Z)
                           (min_turning_radius : R)
  : string + MotionTable :=
  match motion_model with
  | MotionModel.DUBIN =>
      inr (initDubin size_x num_angle_quantization min_turning_radius)
  | MotionModel.REEDS_SHEPP =>
      inr (initReedsShepp size_x num_angle_quantization min_turning_radius)
  | MotionModel.BALKCOM_MASON =>
      inr (initBalkcomMason size_x num_angle_quantization)
  | _ =>
      inl ("Invalid motion model for SE2 node. Please select between"
           ++ " Dubin (Ackermann forward only),"
           ++ " Reeds-Shepp (Ackermann forward and back),"
           ++ " or Balkcom-Mason (Differential drive and omnidirectional) models.")%string
  end.

(** *** The specification's reading of the Dubin table *)

(** [angle = bin] when [angle_raw < bin], else [ceil(angle_raw / bin) * bin]. *)
Definition spec_angle (n_angles : Z) (r_min : R) : R :=
  let angle_raw := 2 * asin (sqrt 2 / (2 * r_min)) in
  let bin := 2 * PI / IZR n_angles in
  if Rlt_dec angle_raw bin then bin
  else IZR (ceilR (angle_raw / bin)) * bin.

Definition spec_dubin_primitives (n_angles : Z) (r_min : R) : list Pose :=
  let angle := spec_angle n_angles r_min in
  let dx := r_min * sin angle in
  let dy := r_min * cos angle - r_min in
  [ mkPose (sqrt 2) 0 0; mkPose dx dy angle; mkPose dx (- dy) (- angle) ].

(** The planar length of a primitive and the cell-escape requirement. *)
Definition planar_norm (p : Pose) : R := sqrt (_x p * _x p + _y p * _y p).

Definition leaves_cell (p : Pose) : Prop := sqrt 2 <= planar_norm p.
(** *** The heuristic and the neighbours of a node *)

(** [NodeSE2::Coordinates] *)
Record Coordinates : Type := mkCoordinates { cx : R; cy : R }.

(** [NodeSE2::getHeuristicCost]: [hypotf] of the offset to the goal. *)
Definition getHeuristicCost (node_coords goal_coordinates : Coordinates) : R :=
  sqrt ((cx goal_coordinates - cx node_coords) * (cx goal_coordinates - cx node_coords)
        + (cy goal_coordinates - cy node_coords) * (cy goal_coordinates - cy node_coords)).

(** Rounding toward zero and [static_cast<unsigned int>] of a [float];
    where C++ leaves the conversion undefined (the truncated value does
    not fit) the embedding reduces it modulo [2^32]. *)
Definition truncR (x : R) : Z :=
  if Rle_dec 0 x then Int_part x else (- Int_part (- x))%Z.

Definition float_to_unsigned (x : R) : Z := (truncR x mod 2 ^ 32)%Z.

Section Neighbors.
(** [NodeSE2::getIndex] is declared in the header; the validity checker
    is an argument of [getNeighbors]: [Some q] when it answers [true] and
    leaves the node [q] in [neighbor], [None] when it answers [false]. *)
Variable getIndex : Z -> Z -> Z -> Z -> Z -> Z.
Variable validityCheckerFunctor : Z -> option Z.

(** The graph index that the loop computes for a projected pose. *)
Definition projection_index (t : MotionTable) (projection : Pose) : Z :=
  getIndex (float_to_unsigned (_x projection))
           (float_to_unsigned (_y projection))
           (float_to_unsigned (_theta projection))
           (size_x t) (num_angle_quantization t).

(** One turn of the loop over the projections.  Nodes are named by the
    pointers the checker hands out; [poses] holds the pose stored in each
    node, [neighbors] the vector being filled. *)
Definition visit_projection (t : MotionTable)
    (state : gmap Z Pose * list Z) (projection : Pose) : gmap Z Pose * list Z :=
  match validityCheckerFunctor (projection_index t projection) with
  | Some neighbor => (<[neighbor := projection]> state.1, state.2 ++ [neighbor])
  | None => state
  end.

(** [NodeSE2::getNeighbors]: the projections are computed once from the
    pose of [node], then every accepted neighbour gets its pose set and is
    pushed onto [neighbors]. *)
Definition getNeighbors (t : MotionTable) (node_pose : Pose)
    (poses : gmap Z Pose) (neighbors : list Z) : gmap Z Pose * list Z :=
  foldl (visit_projection t) (poses, neighbors) (getProjections t node_pose).

(** The projections, in table order, that the checker maps to [q]. *)
Definition accepted_as (t : MotionTable) (q : Z) (projs : list Pose) : list Pose :=
  filter (fun projection =>
            validityCheckerFunctor (projection_index t projection) = Some q) projs.
End Neighbors.

(** The backward twin of a primitive: the same turn driven in reverse. *)
Definition reversed (p : Pose) : Pose := mkPose (- _x p) (_y p) (_theta p).

(** The angular bin of a table with [n] bins. *)
Definition bin_size (n : Z) : R := 2 * PI / IZR n.

End Motion.

(** ** smac_planner.cpp: the planner facade *)

(** A program over a state [S] that either yields a value or leaves early
    with an [E] (an [exit], an exception, an early [return]). *)
Definition Prog (S E A : Type) : Type := S -> (E + A) * S.

Global Instance Prog_ret {S E} : MRet (Prog S E) :=
  fun A (a : A) s => (inr a, s).

Global Instance Prog_bind {S E} : MBind (Prog S E) :=
  fun A B (k : A -> Prog S E B) (c : Prog S E A) s =>
    match c s with
    | (inl e, s') => (inl e, s')
    | (inr a, s') => k a s'
    end.

Definition leave {S E A} (e : E) : Prog S E A := fun s => (inl e, s).

Module Facade.
Local Open Scope Q_scope.

(** *** Machine numbers *)

Definition INT_MAX : Z := 2147483647.

(** [M_PI], the [double] nearest to pi: [0x1.921fb54442d18p+1]. *)
Definition M_PI : Q := 884279719003555 # 281474976710656.

(** A 64-bit parameter value stored into an [int]. *)
Definition to_int (z : Z) : Z := ((z + 2 ^ 31) mod 2 ^ 32 - 2 ^ 31)%Z.

(** [static_cast<unsigned int>] of an [int]. *)
Definition int_to_unsigned (z : Z) : Z := (z mod 2 ^ 32)%Z.

(** Rounding toward zero. *)
Definition Qtrunc (q : Q) : Z := if Qle_bool 0 q then Qfloor q else Qceiling q.

(** [static_cast<unsigned int>] of a [double]: truncation.  C++ leaves
    the conversion undefined when the truncated value does not fit; the
    embedding reduces it modulo [2^32] there. *)
Definition double_to_unsigned (q : Q) : Z := (Qtrunc q mod 2 ^ 32)%Z.

Definition Qlt_bool (a b : Q) : bool := negb (Qle_bool b a).

(** *** Messages *)

Module Point.
Record t : Set := mk { x : Q; y : Q; z : Q }.
End Point.

Module Quaternion.
Record t : Set := mk { x : Q; y : Q; z : Q; w : Q }.
End Quaternion.

Record Header : Set := { stamp : Z; frame_id : string }.

Record Pose : Set := { position : Point.t; orientation : Quaternion.t }.

Record PoseStamped : Set := { header : Header; pose : Pose }.

Record Path : Set := { plan_header : Header; poses : list PoseStamped }.

(** A default-constructed [PoseStamped]. *)
Definition PoseStamped_default : PoseStamped :=
  {| header := {| stamp := 0; frame_id := "" |};
     pose := {| position := Point.mk 0 0 0;
                orientation := Quaternion.mk 0 0 0 1 |} |}.

(** [Eigen::Vector2d] *)
Record Vector2d : Set := vec { vx : Q; vy : Q }.

Definition vadd (a b : Vector2d) : Vector2d := vec (vx a + vx b) (vy a + vy b).
Definition vdiv (a : Vector2d) (d : Q) : Vector2d := vec (vx a / d) (vy a / d).

(** An index path of the search: grid coordinates, goal first. *)
Abbreviation IndexPath := (list (Q * Q)).

(** *** The costmap *)

Record Costmap2D : Set := {
  getSizeInCellsX : Z;
  getSizeInCellsY : Z;
  getResolution : Q;
  getOriginX : Q;
  getOriginY : Q;
  getCharMap : list Z
}.

Record Costmap2DROS : Set := {
  getCostmap : Costmap2D;
  getGlobalFrameID : string
}.

Record MinimalCostmap : Set := {
  mc_costs : list Z;
  mc_size_x : Z;
  mc_size_y : Z;
  mc_origin_x : Q;
  mc_origin_y : Q;
  mc_resolution : Q
}.

(** *** The node: parameters and log *)

Inductive ParameterValue : Set :=
| PBool (b : bool)
| PInt (i : Z)
| PDouble (d : Q)
| PString (s : string).

Inductive Severity : Set := INFO | WARN | FATAL.

Inductive LogArg : Set :=
| ArgStr (s : string)
| ArgInt (i : Z)
| ArgFloat (d : Q).

(** A log call: the printf format and its arguments. *)
Record LogEntry : Set := { severity : Severity; format : string; args : list LogArg }.

(** The part of the lifecycle node that [configure] touches.  A
    parameter already in the map is one the user supplied. *)
Record NodeState : Type := {
  parameters : gmap string ParameterValue;
  logged : list LogEntry
}.

Inductive Abort : Set :=
| Exit (code : Z)
| Throw (what : string).

Definition log_to_node (sev : Severity) (fmt : string) (a : list LogArg)
  : Prog NodeState Abort unit :=
  fun s => (inr tt, {| parameters := parameters s;
                       logged := logged s ++ [ {| severity := sev; format := fmt; args := a |} ] |}).

(** [nav2_util::declare_parameter_if_not_declared] *)
Definition declare_parameter_if_not_declared (name : string) (default : ParameterValue)
  : Prog NodeState Abort unit :=
  fun s =>
    match parameters s !! name with
    | Some _ => (inr tt, s)
    | None => (inr tt, {| parameters := <[name := default]> (parameters s);
                          logged := logged s |})
    end.

(** [get_parameter] at each type read by [configure]; a missing
    parameter or one of another type raises an exception of the
    parameter library. *)
Definition get_parameter (name : string) : Prog NodeState Abort ParameterValue :=
  fun s =>
    match parameters s !! name with
    | Some v => (inr v, s)
    | None => (inl (Throw ("parameter not declared: " +:+ name)), s)
    end.

Definition bad_type {A} (name : string) : Prog NodeState Abort A :=
  leave (Throw ("parameter has another type: " +:+ name)).

Definition get_parameter_double (name : string) : Prog NodeState Abort Q :=
  v ← get_parameter name;
  match v with PDouble d => mret d | _ => bad_type name end.

Definition get_parameter_bool (name : string) : Prog NodeState Abort bool :=
  v ← get_parameter name;
  match v with PBool b => mret b | _ => bad_type name end.

Definition get_parameter_int (name : string) : Prog NodeState Abort Z :=
  v ← get_parameter name;
  match v with PInt i => mret (to_int i) | _ => bad_type name end.

Definition get_parameter_string (name : string) : Prog NodeState Abort string :=
  v ← get_parameter name;
  match v with PString s => mret s | _ => bad_type name end.

(** *** The planner object *)

(** [OptimizerParams] and [SmootherParams] are declared outside the
    sources at hand: the values of their fields, in order. *)
Definition ParamStruct : Set := list ParameterValue.

(** What the facade hands to the search engine: the constructor
    arguments and the arguments of [initialize]. *)
Record AStarAlgorithm : Set := {
  motion_model : MotionModel.t;
  min_turning_radius : Q;
  travel_cost_scale : Q;
  traverse_unknown : bool;
  getMaxIterations : Z;
  getOnApproachMaxIterations : Z
}.

Record Smoother : Set := { smoother_options : ParamStruct }.
Record Upsampler : Set := { upsampler_options : ParamStruct }.

Record CostmapDownsampler : Set := {
  ds_global_frame : string;
  ds_topic_name : string;
  ds_costmap : Costmap2D;
  ds_factor : Z
}.

Record SmacPlanner : Set := {
  _a_star : option AStarAlgorithm;
  _smoother : option Smoother;
  _upsampler : option Upsampler;
  _costmap : Costmap2D;
  _costmap_downsampler : option CostmapDownsampler;
  _global_frame : string;
  _name : string;
  _tolerance : Q;
  _downsampling_factor : Z;
  _angle_quantizations : Z;
  _angle_bin_size : Q;
  _downsample_costmap : bool;
  _upsampling_ratio : Z;
  _optimizer_params : ParamStruct;
  _smoother_params : ParamStruct
}.

(** *** Collaborators outside the two source files *)

(** The request that reaches the search engine through [createGraph],
    [setStart], [setGoal] and [createPath]. *)
Record AStarRequest : Set := {
  rq_engine : AStarAlgorithm;
  rq_size_x : Z;
  rq_size_y : Z;
  rq_angles : Z;
  rq_costs : list Z;
  rq_start : Z * Z * Z;
  rq_goal : Z * Z * Z;
  rq_tolerance : Q
}.

(** The three ways [createPath] can end: [true], [false] (each with the
    path and the iteration count left in the out-parameters), or a
    [std::runtime_error]. *)
Inductive CreatePathResult : Set :=
| PathFound (path : IndexPath) (num_iterations : Z)
| PathNotFound (path : IndexPath) (num_iterations : Z)
| PathThrew (what : string).

Record Externals : Type := {
  (** [fromString] and [toString] of the motion-model enumeration *)
  fromString : string -> MotionModel.t;
  toString : MotionModel.t -> string;
  (** default-constructed parameter structs and their [get(node, name)] *)
  optimizer_defaults : ParamStruct;
  smoother_defaults : ParamStruct;
  optimizer_params_get :
    string -> gmap string ParameterValue ->
    (string + ParamStruct) * gmap string ParameterValue;
  smoother_params_get :
    string -> gmap string ParameterValue ->
    (string + ParamStruct) * gmap string ParameterValue;
  (** [tf2::getYaw] *)
  getYaw : Quaternion.t -> Q;
  (** [Costmap2D::worldToMap]: [None] when it returns [false] *)
  worldToMap : Costmap2D -> Q -> Q -> option (Z * Z);
  (** [CostmapDownsampler::downsample] *)
  downsample : CostmapDownsampler -> Z -> Costmap2D;
  (** [AStarAlgorithm::createGraph]: [Some what] when it throws *)
  createGraph : AStarAlgorithm -> Z -> Z -> Z -> list Z -> option string;
  createPath : AStarRequest -> CreatePathResult;
  (** [Smoother::smooth] and [Upsampler::upsample]: the flag returned
      and the path left in the vector *)
  smooth : Smoother -> list Vector2d -> MinimalCostmap -> ParamStruct ->
           bool * list Vector2d;
  upsample : Upsampler -> list Vector2d -> ParamStruct -> Z ->
             bool * list Vector2d
}.

(** A [get(node, name)] of a parameter struct, run on the node. *)
Definition run_get (g : gmap string ParameterValue ->
                        (string + ParamStruct) * gmap string ParameterValue)
  : Prog NodeState Abort ParamStruct :=
  fun s =>
    match g (parameters s) with
    | (inl what, m) => (inl (Throw what), {| parameters := m; logged := logged s |})
    | (inr v, m) => (inr v, {| parameters := m; logged := logged s |})
    end.

(** *** [SmacPlanner::configure] *)

Definition configure (X : Externals) (name : string) (costmap_ros : Costmap2DROS)
  : Prog NodeState Abort SmacPlanner :=
  let costmap := getCostmap costmap_ros in
  let global_frame := getGlobalFrameID costmap_ros in
  let max_on_approach_iterations := INT_MAX in
  (* General planner params *)
  declare_parameter_if_not_declared (name +:+ ".tolerance") (PDouble 0.125);;
  tolerance ← get_parameter_double (name +:+ ".tolerance");
  declare_parameter_if_not_declared (name +:+ ".downsample_costmap") (PBool true);;
  downsample_costmap ← get_parameter_bool (name +:+ ".downsample_costmap");
  declare_parameter_if_not_declared (name +:+ ".downsampling_factor") (PInt 1);;
  downsampling_factor ← get_parameter_int (name +:+ ".downsampling_factor");
  declare_parameter_if_not_declared (name +:+ ".angle_quantization_bins") (PInt 1);;
  angle_quantizations ← get_parameter_int (name +:+ ".angle_quantization_bins");
  let angle_bin_size := 2 * M_PI / inject_Z angle_quantizations in
  let angle_quantizations_u := int_to_unsigned angle_quantizations in
  declare_parameter_if_not_declared (name +:+ ".allow_unknown") (PBool true);;
  allow_unknown ← get_parameter_bool (name +:+ ".allow_unknown");
  declare_parameter_if_not_declared (name +:+ ".max_iterations") (PInt (-1));;
  max_iterations ← get_parameter_int (name +:+ ".max_iterations");
  declare_parameter_if_not_declared (name +:+ ".travel_cost_scale") (PDouble 0.8);;
  travel_cost_scale ← get_parameter_double (name +:+ ".travel_cost_scale");
  declare_parameter_if_not_declared (name +:+ ".smooth_path") (PBool true);;
  smooth_path ← get_parameter_bool (name +:+ ".smooth_path");
  declare_parameter_if_not_declared (name +:+ ".upsample_path") (PBool false);;
  upsample_path ← get_parameter_bool (name +:+ ".upsample_path");
  declare_parameter_if_not_declared (name +:+ ".smoother.upsampling_ratio") (PInt 2);;
  upsampling_ratio ← get_parameter_int (name +:+ ".smoother.upsampling_ratio");
  declare_parameter_if_not_declared (name +:+ ".minimum_turning_radius") (PDouble 1);;
  minimum_turning_radius ← get_parameter_double (name +:+ ".minimum_turning_radius");
  declare_parameter_if_not_declared (name +:+ ".motion_model_for_search") (PString "MOORE");;
  motion_model_for_search ← get_parameter_string (name +:+ ".motion_model_for_search");
  let motion_model := fromString X motion_model_for_search in
  (match motion_model with
   | MotionModel.UNKNOWN =>
       log_to_node WARN
         ("Unable to get MotionModel search type. Given '%s', "
          +:+ "valid options are MOORE, VON_NEUMANN, DUBIN, REEDS_SHEPP, BALKCOM_MASON.")
         [ArgStr motion_model_for_search]
   | _ => mret tt
   end);;
  max_on_approach_iterations ←
    (if (max_on_approach_iterations <=? 0)%Z then
       log_to_node INFO
         ("On approach iteration selected as <= 0, "
          +:+ "disabling tolerance and on approach iterations.") [];;
       mret INT_MAX
     else mret max_on_approach_iterations);
  max_iterations ←
    (if (max_iterations <=? 0)%Z then
       log_to_node INFO
         ("maximum iteration selected as <= 0, "
          +:+ "disabling maximum iterations.") [];;
       mret INT_MAX
     else mret max_iterations);
  (if Qlt_bool 1 travel_cost_scale || Qlt_bool travel_cost_scale 0 then
     log_to_node FATAL "Travel cost scale must be between 0 and 1, exiting." [];;
     leave (Exit (-1))
   else mret tt);;
  upsampling_ratio ←
    (if negb (upsampling_ratio =? 2)%Z && negb (upsampling_ratio =? 4)%Z then
       log_to_node WARN
         "Upsample ratio set to %i, only 2 and 4 are valid. Defaulting to 2."
         [ArgInt upsampling_ratio];;
       mret 2%Z
     else mret upsampling_ratio);
  let grid_coord_min_turning_rad :=
    minimum_turning_radius / (getResolution costmap * inject_Z downsampling_factor) in
  let a_star :=
    {| motion_model := motion_model;
       min_turning_radius := grid_coord_min_turning_rad;
       travel_cost_scale := travel_cost_scale;
       traverse_unknown := allow_unknown;
       getMaxIterations := max_iterations;
       getOnApproachMaxIterations := max_on_approach_iterations |} in
  built ←
    (if (smooth_path : bool)
        return Prog NodeState Abort
                 (option Smoother * option Upsampler * ParamStruct * ParamStruct)
     then
       optimizer_params ← run_get (optimizer_params_get X name);
       smoother_params ← run_get (smoother_params_get X name);
       let smoother := {| smoother_options := optimizer_params |} in
       let upsampler :=
         if upsample_path && (0 <? upsampling_ratio)%Z
         then Some {| upsampler_options := optimizer_params |} else None in
       mret (Some smoother, upsampler, optimizer_params, smoother_params)
     else mret (None, None, optimizer_defaults X, smoother_defaults X));
  let '(smoother, upsampler, optimizer_params, smoother_params) := built in
  let costmap_downsampler :=
    if downsample_costmap && (1 <? downsampling_factor)%Z
    then Some {| ds_global_frame := global_frame;
                 ds_topic_name := "downsampled_costmap";
                 ds_costmap := costmap;
                 ds_factor := downsampling_factor |}
    else None in
  log_to_node INFO
    ("Configured plugin %s of type SmacPlanner with "
     +:+ "travel cost %.2f, tolerance %.2f, maximum iterations %i, "
     +:+ "max on approach iterations %i, and %s. Using motion model: %s.")
    [ ArgStr name; ArgFloat travel_cost_scale; ArgFloat tolerance;
      ArgInt max_iterations; ArgInt max_on_approach_iterations;
      ArgStr (if (allow_unknown : bool) then "allowing unknown traversal"
              else "not allowing unknown traversal");
      ArgStr (toString X motion_model) ];;
  mret {| _a_star := Some a_star;
          _smoother := smoother;
          _upsampler := upsampler;
          _costmap := costmap;
          _costmap_downsampler := costmap_downsampler;
          _global_frame := global_frame;
          _name := name;
          _tolerance := tolerance;
          _downsampling_factor := downsampling_factor;
          _angle_quantizations := angle_quantizations_u;
          _angle_bin_size := angle_bin_size;
          _downsample_costmap := downsample_costmap;
          _upsampling_ratio := upsampling_ratio;
          _optimizer_params := optimizer_params;
          _smoother_params := smoother_params |}.

(** *** [SmacPlanner::getWorldCoords] *)

Definition getWorldCoords (mx my : Q) (costmap : Costmap2D) : Vector2d :=
  let world_x := getOriginX costmap + (mx + 0.5) * getResolution costmap in
  let world_y := getOriginY costmap + (my + 0.5) * getResolution costmap in
  vec world_x world_y.

(** *** [SmacPlanner::removeHook] *)

(** Modelled from the spec: [squaredDistance] is declared in a header
    outside the sources at hand; the square of the Euclidean distance
    that the specification compares. *)
Definition squaredDistance (a b : Vector2d) : Q :=
  (vx a - vx b) * (vx a - vx b) + (vy a - vy b) * (vy a - vy b).

(** [path.end()[-3]] needs three points; with fewer the source reads
    before the vector and nothing is defined ([None]). *)
Definition removeHook (path : list Vector2d) : option (list Vector2d) :=
  let n := length path in
  if (n <? 3)%nat then None
  else
    match path !! (n - 3)%nat, path !! (n - 2)%nat, path !! (n - 1)%nat with
    | Some p3, Some p2, Some p1 =>
        let interpolated_second_to_last_point := vdiv (vadd p3 p1) 2 in
        if Qlt_bool (squaredDistance interpolated_second_to_last_point p1)
                    (squaredDistance p2 p1)
        then Some (<[(n - 2)%nat := interpolated_second_to_last_point]> path)
        else Some path
    | _, _, _ => None
    end.

(** *** [SmacPlanner::createPlan] *)

(** What one call observes of its surroundings: the clock, the
    subscriber counts of the two debug topics, and the indeterminate
    initial content of the locals [mx], [my]. *)
Record Env : Set := {
  now : Z;
  raw_plan_subscribers : Z;
  smoothed_plan_subscribers : Z;
  indeterminate_mx : Z;
  indeterminate_my : Z
}.

(** The calls and messages a plan request issues, in order. *)
Inductive Event : Set :=
| EvCreateGraph (size_x size_y angles : Z)
| EvSetStart (mx my bin : Z)
| EvSetGoal (mx my bin : Z)
| EvCreatePath (tolerance : Q)
| EvLog (entry : LogEntry)
| EvPublishRaw (plan : Path)
| EvSmooth (path : list Vector2d)
| EvRemoveHook (path : list Vector2d)
| EvPublishSmoothed (plan : Path)
| EvUpsample (path : list Vector2d) (ratio : Z).

(** How a call ends other than by falling off its last [return]. *)
Inductive PlanExit : Set :=
| Return (plan : Path)
| Uncaught (what : string)
| Undefined.

Definition emit (e : Event) : Prog (list Event) PlanExit unit :=
  fun t => (inr tt, t ++ [e]).

Definition defined {A} (o : option A) : Prog (list Event) PlanExit A :=
  match o with
  | Some a => mret a
  | None => leave Undefined
  end.

(** [worldToMap(wx, wy, mx, my)] with its result ignored: the
    out-parameters keep their previous content when it fails. *)
Definition worldToMap_into (X : Externals) (costmap : Costmap2D)
                           (wx wy : Q) (previous : Z * Z) : Z * Z :=
  match worldToMap X costmap wx wy with
  | Some m => m
  | None => previous
  end.

(** The conversion loop, [for (int i = path.size() - 1; i >= 0; --i)],
    entered with [k = i + 1]: with a smoother only every fourth index is
    kept. *)
Fixpoint convert_loop (smoothing : bool) (path : IndexPath)
                      (costmap : Costmap2D) (k : nat) : list Vector2d :=
  match k with
  | O => []
  | S i =>
      if smoothing && negb (i mod 4 =? 0)%nat
      then convert_loop smoothing path costmap i
      else
        match path !! i with
        | Some (mx, my) =>
            getWorldCoords mx my costmap :: convert_loop smoothing path costmap i
        | None => convert_loop smoothing path costmap i
        end
  end.

Definition path_to_world (smoothing : bool) (path : IndexPath)
                         (costmap : Costmap2D) : list Vector2d :=
  convert_loop smoothing path costmap (length path).

(** [for (i = 0; i != path_world.size(); i++) plan.poses[i] = pose]:
    writes past the end of [poses] are undefined. *)
Fixpoint write_poses (mk_pose : Vector2d -> PoseStamped)
                     (poses : list PoseStamped) (path_world : list Vector2d)
  : option (list PoseStamped) :=
  match path_world, poses with
  | [], _ => Some poses
  | v :: path_world', _ :: poses' =>
      cons (mk_pose v) <$> write_poses mk_pose poses' path_world'
  | _ :: _, [] => None
  end.

(** [for (i = 0; i != plan.poses.size(); i++) plan.poses[i] = pose]:
    reads past the end of [path_world] are undefined. *)
Fixpoint fill_poses (mk_pose : Vector2d -> PoseStamped)
                    (poses : list PoseStamped) (path_world : list Vector2d)
  : option (list PoseStamped) :=
  match poses, path_world with
  | [], _ => Some []
  | _ :: poses', v :: path_world' =>
      cons (mk_pose v) <$> fill_poses mk_pose poses' path_world'
  | _ :: _, [] => None
  end.

(** [std::vector::resize] *)
Definition resize_poses (n : nat) (poses : list PoseStamped) : list PoseStamped :=
  firstn n poses ++ repeat PoseStamped_default (n - length poses).

(** The costmap a plan is computed on. *)
Definition planning_costmap (X : Externals) (p : SmacPlanner) : Costmap2D :=
  match _costmap_downsampler p with
  | Some d => downsample X d (_downsampling_factor p)
  | None => _costmap p
  end.

(** [static_cast<unsigned int>(orientation / _angle_bin_size)] *)
Definition orientation_bin (p : SmacPlanner) (orientation_ : Q) : Z :=
  double_to_unsigned (orientation_ / _angle_bin_size p).

(** The arguments of [setStart]. *)
Definition start_cell (X : Externals) (p : SmacPlanner) (env : Env)
                      (start : PoseStamped) : Z * Z * Z :=
  let m := worldToMap_into X (planning_costmap X p)
             (Point.x (position (pose start))) (Point.y (position (pose start)))
             (indeterminate_mx env, indeterminate_my env) in
  let orientation_ := getYaw X (orientation (pose start)) in
  (m.1, m.2, orientation_bin p orientation_).

(** The arguments of [setGoal]; [mx], [my] still hold the start cell
    when the conversion of the goal fails, and the yaw is read from
    [start.pose.orientation] as in the source. *)
Definition goal_cell (X : Externals) (p : SmacPlanner) (env : Env)
                     (start goal : PoseStamped) : Z * Z * Z :=
  let s := start_cell X p env start in
  let m := worldToMap_into X (planning_costmap X p)
             (Point.x (position (pose goal))) (Point.y (position (pose goal)))
             (s.1.1, s.1.2) in
  let orientation_ := getYaw X (orientation (pose start)) in
  (m.1, m.2, orientation_bin p orientation_).

(** Everything the engine has been given when [createPath] runs. *)
Definition request (X : Externals) (p : SmacPlanner) (env : Env)
                   (start goal : PoseStamped) (a_star : AStarAlgorithm)
  : AStarRequest :=
  let costmap := planning_costmap X p in
  {| rq_engine := a_star;
     rq_size_x := getSizeInCellsX costmap;
     rq_size_y := getSizeInCellsY costmap;
     rq_angles := _angle_quantizations p;
     rq_costs := getCharMap costmap;
     rq_start := start_cell X p env start;
     rq_goal := goal_cell X p env start goal;
     rq_tolerance := _tolerance p / getResolution costmap |}.

(** The header of the plan and the pose stamped onto every waypoint. *)
Definition plan_stamp (p : SmacPlanner) (env : Env) : Header :=
  {| stamp := now env; frame_id := _global_frame p |}.

Definition mk_pose (hdr : Header) (v : Vector2d) : PoseStamped :=
  {| header := hdr;
     pose := {| position := Point.mk (vx v) (vy v) 0;
                orientation := Quaternion.mk 0 0 0 1 |} |}.

Definition createPlan_body (X : Externals) (p : SmacPlanner) (env : Env)
                           (start goal : PoseStamped)
  : Prog (list Event) PlanExit Path :=
  a_star ← defined (_a_star p);
  (* Choose which costmap to use for the planning *)
  let costmap := planning_costmap X p in
  (* Set Costmap *)
  let char_costmap := getCharMap costmap in
  emit (EvCreateGraph (getSizeInCellsX costmap) (getSizeInCellsY costmap)
                      (_angle_quantizations p));;
  match createGraph X a_star (getSizeInCellsX costmap) (getSizeInCellsY costmap)
                    (_angle_quantizations p) char_costmap with
  | Some what => leave (Uncaught what)
  | None => mret tt
  end;;
  (* Set starting point *)
  let s := start_cell X p env start in
  emit (EvSetStart s.1.1 s.1.2 s.2);;
  (* Set goal point *)
  let g := goal_cell X p env start goal in
  emit (EvSetGoal g.1.1 g.1.2 g.2);;
  (* Setup message *)
  let hdr := plan_stamp p env in
  let empty_plan := {| plan_header := hdr; poses := [] |} in
  let mk_pose := mk_pose hdr in
  (* Compute plan *)
  emit (EvCreatePath (_tolerance p / getResolution costmap));;
  let '(error, path, num_iterations) :=
    match createPath X (request X p env start goal a_star) with
    | PathFound path n => (""%string, path, n)
    | PathNotFound path n =>
        (if (n <? getMaxIterations a_star)%Z
         then "no valid path found"%string
         else "exceeded maximum iterations"%string, path, n)
    | PathThrew what => ("invalid use: " +:+ what, [], 0%Z)
    end in
  (if negb (String.eqb error "") then
     emit (EvLog {| severity := WARN;
                    format := "%s: failed to create plan, %s.";
                    args := [ArgStr (_name p); ArgStr error] |});;
     leave (Return empty_plan)
   else mret tt);;
  (* Convert to world coordinates and downsample path for smoothing *)
  let path_world := path_to_world (bool_decide (is_Some (_smoother p))) path costmap in
  let plan := {| plan_header := hdr; poses := map mk_pose path_world |} in
  (* Publish raw path for debug *)
  (if (0 <? raw_plan_subscribers env)%Z then emit (EvPublishRaw plan) else mret tt);;
  match _smoother p with
  | None => leave (Return plan)
  | Some smoother =>
      (* if too small, return path *)
      if (length path_world <? 4)%nat then leave (Return plan)
      else
        (* Smooth plan *)
        let mcmap :=
          {| mc_costs := char_costmap;
             mc_size_x := getSizeInCellsX costmap;
             mc_size_y := getSizeInCellsY costmap;
             mc_origin_x := getOriginX costmap;
             mc_origin_y := getOriginY costmap;
             mc_resolution := getResolution costmap |} in
        emit (EvSmooth path_world);;
        let smoothed := smooth X smoother path_world mcmap (_smoother_params p) in
        (if negb smoothed.1 then
           emit (EvLog {| severity := WARN;
                          format := "%s: failed to smooth plan, Ceres could not find a usable solution to optimize.";
                          args := [ArgStr (_name p)] |});;
           leave (Return plan)
         else mret tt);;
        emit (EvRemoveHook smoothed.2);;
        path_world ← defined (removeHook smoothed.2);
        (* Publish smoothed path for debug *)
        plan_poses ←
          (if (0 <? smoothed_plan_subscribers env)%Z then
             written ← defined (write_poses mk_pose (poses plan) path_world);
             emit (EvPublishSmoothed {| plan_header := hdr; poses := written |});;
             mret written
           else mret (poses plan));
        (* Upsample path *)
        upsampled ←
          match _upsampler p with
          | Some upsampler =>
              emit (EvUpsample path_world (_upsampling_ratio p));;
              let r := upsample X upsampler path_world (_smoother_params p)
                                (_upsampling_ratio p) in
              if negb r.1 then
                emit (EvLog {| severity := WARN;
                               format := "%s: failed to upsample plan, Ceres could not find a usable solution to optimize.";
                               args := [ArgStr (_name p)] |});;
                mret (r.2, plan_poses)
              else mret (r.2, resize_poses (length r.2) plan_poses)
          | None => mret (path_world, plan_poses)
          end;
        final_poses ← defined (fill_poses mk_pose upsampled.2 upsampled.1);
        mret {| plan_header := hdr; poses := final_poses |}
  end.

(** The events of the call and the way it ends. *)
Definition createPlan (X : Externals) (p : SmacPlanner) (env : Env)
                      (start goal : PoseStamped) : list Event * PlanExit :=
  match createPlan_body X p env start goal [] with
  | (inl e, t) => (t, e)
  | (inr plan, t) => (t, Return plan)
  end.

(** The trace split by kind. *)
Definition setGoal_calls (t : list Event) : list (Z * Z * Z) :=
  omap (fun e => match e with EvSetGoal mx my bin => Some (mx, my, bin) | _ => None end) t.

Definition warnings (t : list Event) : list LogEntry :=
  omap (fun e => match e with
                 | EvLog l => match severity l with WARN => Some l | _ => None end
                 | _ => None end) t.

Definition is_refinement (e : Event) : bool :=
  match e with
  | EvSmooth _ | EvRemoveHook _ | EvUpsample _ _ => true
  | _ => false
  end.

(** The positions of a plan's waypoints. *)
Definition waypoints (plan : Path) : list Vector2d :=
  map (fun ps => vec (Point.x (position (pose ps))) (Point.y (position (pose ps))))
      (poses plan).

(** [createGraph] returns normally on the planning costmap. *)
Definition graph_created (X : Externals) (p : SmacPlanner)
                         (a_star : AStarAlgorithm) : Prop :=
  createGraph X a_star
    (getSizeInCellsX (planning_costmap X p))
    (getSizeInCellsY (planning_costmap X p))
    (_angle_quantizations p)
    (getCharMap (planning_costmap X p)) = None.

(** The events up to and including the call of [createPath]. *)
Definition search_events (X : Externals) (p : SmacPlanner) (env : Env)
                         (start goal : PoseStamped) : list Event :=
  [ EvCreateGraph (getSizeInCellsX (planning_costmap X p))
                  (getSizeInCellsY (planning_costmap X p))
                  (_angle_quantizations p);
    EvSetStart (start_cell X p env start).1.1 (start_cell X p env start).1.2
               (start_cell X p env start).2;
    EvSetGoal (goal_cell X p env start goal).1.1 (goal_cell X p env start goal).1.2
              (goal_cell X p env start goal).2;
    EvCreatePath (_tolerance p / getResolution (planning_costmap X p)) ].

(** The warning of a failed search. *)
Definition failure_warning (p : SmacPlanner) (reason : string) : LogEntry :=
  {| severity := WARN;
     format := "%s: failed to create plan, %s.";
     args := [ArgStr (_name p); ArgStr reason] |}.

(** The plan stamped from a list of world points. *)
Definition plan_of (p : SmacPlanner) (env : Env) (path_world : list Vector2d) : Path :=
  {| plan_header := plan_stamp p env;
     poses := map (mk_pose (plan_stamp p env)) path_world |}.

(** The raw plan goes out when the debug topic has a subscriber. *)
Definition raw_publication (env : Env) (plan : Path) : list Event :=
  if (0 <? raw_plan_subscribers env)%Z then [EvPublishRaw plan] else [].

(** The state right after construction: every pointer is null. *)
Definition unconfigured : SmacPlanner :=
  {| _a_star := None;
     _smoother := None;
     _upsampler := None;
     _costmap := {| getSizeInCellsX := 0; getSizeInCellsY := 0; getResolution := 0;
                    getOriginX := 0; getOriginY := 0; getCharMap := [] |};
     _costmap_downsampler := None;
     _global_frame := "";
     _name := "";
     _tolerance := 0;
     _downsampling_factor := 0;
     _angle_quantizations := 0;
     _angle_bin_size := 0;
     _downsample_costmap := false;
     _upsampling_ratio := 0;
     _optimizer_params := [];
     _smoother_params := [] |}.

(** *** Reading the outcome of [configure] *)

(** [returns c s Q E]: run from [s], [c] either returns a value and a
    state that satisfy [Q], or calls [exit] with a code and a state that
    satisfy [E], or raises an exception. *)
Definition returns {A} (c : Prog NodeState Abort A) (s : NodeState)
                   (Q : A -> NodeState -> Prop) (E : Z -> NodeState -> Prop) : Prop :=
  match c s with
  | (inr a, s') => Q a s'
  | (inl (Exit code), s') => E code s'
  | (inl (Throw _), _) => True
  end.

(** The two messages of [configure] that matter below. *)
Definition unknown_model_warning (given : string) : LogEntry :=
  {| severity := WARN;
     format := "Unable to get MotionModel search type. Given '%s', "
               +:+ "valid options are MOORE, VON_NEUMANN, DUBIN, REEDS_SHEPP, BALKCOM_MASON.";
     args := [ArgStr given] |}.

Definition travel_cost_fatal : LogEntry :=
  {| severity := FATAL;
     format := "Travel cost scale must be between 0 and 1, exiting.";
     args := [] |}.

(** The string that [configure] reads for the motion model and what
    the log says about it: [given] is the value of the parameter when the
    node came with one, and it is quoted in a warning when it is not
    recognised. *)
Definition model_read (X : Externals) (name : string) (node : NodeState)
                      (given : string) (node' : NodeState) : Prop :=
  (forall s0,
      parameters node !! (name +:+ ".motion_model_for_search") = Some (PString s0) ->
      given = s0)
  /\ (fromString X given = MotionModel.UNKNOWN ->
      In (unknown_model_warning given) (logged node')).

(** Configuration is refused: [configure] does not return a planner. *)
Definition refuses_to_initialize (outcome : (Abort + SmacPlanner) * NodeState) : Prop :=
  match outcome with
  | (inl _, _) => True
  | (inr _, _) => False
  end.
(** *** What [configure] reads and what it builds *)

(** The value [configure] works with for a parameter: the one the node
    came with, or else the default it declares. *)
Definition effective (node : NodeState) (key : string) (default : ParameterValue)
  : ParameterValue :=
  match parameters node !! key with
  | Some v => v
  | None => default
  end.

(** The locals of [configure] after the parameters have been read. *)
Record Settings : Set := {
  s_tolerance : Q;
  s_downsample_costmap : bool;
  s_downsampling_factor : Z;
  s_angle_quantizations : Z;
  s_allow_unknown : bool;
  s_max_iterations : Z;
  s_travel_cost_scale : Q;
  s_smooth_path : bool;
  s_upsample_path : bool;
  s_upsampling_ratio : Z;
  s_minimum_turning_radius : Q;
  s_motion_model_for_search : string
}.

(** [c] holds the effective parameters of the node, under the planner's
    name, each at the type [configure] reads it. *)
Definition settings_read (name : string) (node : NodeState) (c : Settings) : Prop :=
  effective node (name +:+ ".tolerance") (PDouble 0.125) = PDouble (s_tolerance c)
  /\ effective node (name +:+ ".downsample_costmap") (PBool true)
     = PBool (s_downsample_costmap c)
  /\ (exists i, effective node (name +:+ ".downsampling_factor") (PInt 1) = PInt i
                /\ s_downsampling_factor c = to_int i)
  /\ (exists i, effective node (name +:+ ".angle_quantization_bins") (PInt 1) = PInt i
                /\ s_angle_quantizations c = to_int i)
  /\ effective node (name +:+ ".allow_unknown") (PBool true) = PBool (s_allow_unknown c)
  /\ (exists i, effective node (name +:+ ".max_iterations") (PInt (-1)) = PInt i
                /\ s_max_iterations c = to_int i)
  /\ effective node (name +:+ ".travel_cost_scale") (PDouble 0.8)
     = PDouble (s_travel_cost_scale c)
  /\ effective node (name +:+ ".smooth_path") (PBool true) = PBool (s_smooth_path c)
  /\ effective node (name +:+ ".upsample_path") (PBool false) = PBool (s_upsample_path c)
  /\ (exists i, effective node (name +:+ ".smoother.upsampling_ratio") (PInt 2) = PInt i
                /\ s_upsampling_ratio c = to_int i)
  /\ effective node (name +:+ ".minimum_turning_radius") (PDouble 1)
     = PDouble (s_minimum_turning_radius c)
  /\ effective node (name +:+ ".motion_model_for_search") (PString "MOORE")
     = PString (s_motion_model_for_search c).

(** The engine that [configure] builds from the settings. *)
Definition engine_of (X : Externals) (costmap_ros : Costmap2DROS) (c : Settings)
  : AStarAlgorithm :=
  {| motion_model := fromString X (s_motion_model_for_search c);
     min_turning_radius :=
       s_minimum_turning_radius c
       / (getResolution (getCostmap costmap_ros) * inject_Z (s_downsampling_factor c));
     travel_cost_scale := s_travel_cost_scale c;
     traverse_unknown := s_allow_unknown c;
     getMaxIterations :=
       if (s_max_iterations c <=? 0)%Z then INT_MAX else s_max_iterations c;
     getOnApproachMaxIterations := INT_MAX |}.

(** The planner [p] is the one [configure] builds from the settings [c]:
    every member except the two parameter structs, which come from
    outside. *)
Definition configured_with (X : Externals) (name : string)
    (costmap_ros : Costmap2DROS) (c : Settings) (p : SmacPlanner) : Prop :=
  _a_star p = Some (engine_of X costmap_ros c)
  /\ (_smoother p = None <-> s_smooth_path c = false)
  /\ (_upsampler p = None <-> s_smooth_path c && s_upsample_path c = false)
  /\ _costmap p = getCostmap costmap_ros
  /\ _costmap_downsampler p =
       (if s_downsample_costmap c && (1 <? s_downsampling_factor c)%Z
        then Some {| ds_global_frame := getGlobalFrameID costmap_ros;
                     ds_topic_name := "downsampled_costmap";
                     ds_costmap := getCostmap costmap_ros;
                     ds_factor := s_downsampling_factor c |}
        else None)
  /\ _global_frame p = getGlobalFrameID costmap_ros
  /\ _name p = name
  /\ _tolerance p = s_tolerance c
  /\ _downsampling_factor p = s_downsampling_factor c
  /\ _angle_quantizations p = int_to_unsigned (s_angle_quantizations c)
  /\ _angle_bin_size p = 2 * M_PI / inject_Z (s_angle_quantizations c)
  /\ _downsample_costmap p = s_downsample_costmap c
  /\ _upsampling_ratio p =
       (if negb (s_upsampling_ratio c =? 2)%Z && negb (s_upsampling_ratio c =? 4)%Z
        then 2%Z else s_upsampling_ratio c)
  /\ Qlt_bool 1 (s_travel_cost_scale c) || Qlt_bool (s_travel_cost_scale c) 0 = false.
(** The costmap view handed to the smoother. *)
Definition minimal_costmap (costmap : Costmap2D) : MinimalCostmap :=
  {| mc_costs := getCharMap costmap;
     mc_size_x := getSizeInCellsX costmap;
     mc_size_y := getSizeInCellsY costmap;
     mc_origin_x := getOriginX costmap;
     mc_origin_y := getOriginY costmap;
     mc_resolution := getResolution costmap |}.

(** The warnings of the smoother and of the upsampler. *)
Definition smoothing_warning (p : SmacPlanner) : LogEntry :=
  {| severity := WARN;
     format := "%s: failed to smooth plan, Ceres could not find a usable solution to optimize.";
     args := [ArgStr (_name p)] |}.

Definition upsampling_warning (p : SmacPlanner) : LogEntry :=
  {| severity := WARN;
     format := "%s: failed to upsample plan, Ceres could not find a usable solution to optimize.";
     args := [ArgStr (_name p)] |}.

(** The smoothed plan goes out when its debug topic has a subscriber. *)
Definition smoothed_publication (env : Env) (plan : Path) : list Event :=
  if (0 <? smoothed_plan_subscribers env)%Z then [EvPublishSmoothed plan] else [].

(** The centre of a cell of the index path. *)
Definition cell_centre (costmap : Costmap2D) (cell : Q * Q) : Vector2d :=
  getWorldCoords cell.1 cell.2 costmap.

(** Every pose of a plan carries the header [hdr], lies in the plane and
    has the identity orientation. *)
Definition stamped (hdr : Header) (ps : PoseStamped) : Prop :=
  header ps = hdr
  /\ Point.z (position (pose ps)) = 0
  /\ orientation (pose ps) = Quaternion.mk 0 0 0 1.
End Facade.

(** ** Concrete collaborators and inputs for the examples *)

Module Demo.
Import Facade.
Local Open Scope Q_scope.

(** Modelled from the spec: [fromString] is declared in a header outside
    the sources at hand.  It recognises the five names that the
    specification and the warning of [configure] list; every other
    string is [MotionModel::UNKNOWN]. *)
Definition fromString (n : string) : MotionModel.t :=
  if String.eqb n "VON_NEUMANN" then MotionModel.VON_NEUMANN
  else if String.eqb n "MOORE" then MotionModel.MOORE
  else if String.eqb n "DUBIN" then MotionModel.DUBIN
  else if String.eqb n "REEDS_SHEPP" then MotionModel.REEDS_SHEPP
  else if String.eqb n "BALKCOM_MASON" then MotionModel.BALKCOM_MASON
  else MotionModel.UNKNOWN.

Definition toString (m : MotionModel.t) : string :=
  match m with
  | MotionModel.VON_NEUMANN => "Von Neumann"
  | MotionModel.MOORE => "Moore"
  | MotionModel.DUBIN => "Dubin"
  | MotionModel.REEDS_SHEPP => "Reeds-Shepp"
  | MotionModel.BALKCOM_MASON => "Balkcom-Mason"
  | MotionModel.UNKNOWN => "Unknown"
  end.

(** The yaw of the two rotations used below: the identity [(0,0,0,1)]
    has yaw [0]; the half turn about z, [(0,0,1,0)], has yaw
    [atan2(0, -1)], which is [M_PI] in double arithmetic. *)
Definition getYaw (q : Quaternion.t) : Q :=
  if Qeq_bool (Quaternion.w q) 0 then M_PI else 0.

(** Modelled from the spec: [Costmap2D::worldToMap] belongs to the
    costmap package; the cell whose centre convention
    [origin + (m + 0.5) * resolution] covers the point, if it is on the
    grid. *)
Definition worldToMap (c : Costmap2D) (wx wy : Q) : option (Z * Z) :=
  if Qlt_bool wx (getOriginX c) || Qlt_bool wy (getOriginY c) then None
  else
    let mx := Qfloor ((wx - getOriginX c) / getResolution c) in
    let my := Qfloor ((wy - getOriginY c) / getResolution c) in
    if (mx <? getSizeInCellsX c)%Z && (my <? getSizeInCellsY c)%Z
    then Some (mx, my) else None.

(** Collaborators whose search ends as [r]; the smoother and the
    upsampler succeed and leave the path as it is. *)
Definition externals (r : CreatePathResult) : Externals :=
  {| Facade.fromString := fromString;
     Facade.toString := toString;
     optimizer_defaults := [];
     smoother_defaults := [];
     optimizer_params_get := fun _ m => (inr [], m);
     smoother_params_get := fun _ m => (inr [], m);
     Facade.getYaw := getYaw;
     Facade.worldToMap := worldToMap;
     downsample := fun d _ => ds_costmap d;
     createGraph := fun _ _ _ _ _ => None;
     createPath := fun _ => r;
     smooth := fun _ path _ _ => (true, path);
     upsample := fun _ path _ _ => (true, path) |}.

(** A free 10 x 10 grid of one-metre cells with its origin at (0, 0). *)
Definition costmap : Costmap2D :=
  {| getSizeInCellsX := 10;
     getSizeInCellsY := 10;
     getResolution := 1;
     getOriginX := 0;
     getOriginY := 0;
     getCharMap := repeat 0%Z 100 |}.

Definition costmap_ros : Costmap2DROS :=
  {| getCostmap := costmap; getGlobalFrameID := "map" |}.

Definition node (params : list (string * ParameterValue)) : NodeState :=
  {| parameters := list_to_map params; logged := [] |}.

(** The planner that [configure] builds from the given parameters; the
    unconfigured planner if [configure] does not return. *)
Definition planner (r : CreatePathResult)
                   (params : list (string * ParameterValue)) : SmacPlanner :=
  match configure (externals r) "GridBased" costmap_ros (node params) with
  | (inr p, _) => p
  | (inl _, _) => unconfigured
  end.

(** The node as [configure] leaves it. *)
Definition configured_node (r : CreatePathResult)
                           (params : list (string * ParameterValue)) : NodeState :=
  (configure (externals r) "GridBased" costmap_ros (node params)).2.

(** The engine of [planner r params]. *)
Definition engine (r : CreatePathResult)
                  (params : list (string * ParameterValue)) : AStarAlgorithm :=
  match _a_star (planner r params) with
  | Some a => a
  | None => {| motion_model := MotionModel.UNKNOWN; min_turning_radius := 0;
               travel_cost_scale := 0; traverse_unknown := false;
               getMaxIterations := 0; getOnApproachMaxIterations := 0 |}
  end.

Definition env : Env :=
  {| now := 0;
     raw_plan_subscribers := 0;
     smoothed_plan_subscribers := 0;
     indeterminate_mx := 0;
     indeterminate_my := 0 |}.

Definition pose_at (x y : Q) (q : Quaternion.t) : PoseStamped :=
  {| header := {| stamp := 0; frame_id := "map" |};
     pose := {| position := Point.mk x y 0; orientation := q |} |}.

Definition facing_east : Quaternion.t := Quaternion.mk 0 0 0 1.
Definition facing_west : Quaternion.t := Quaternion.mk 0 0 1 0.
(** Collaborators as in [externals], with a [createGraph] that throws
    when [graph] names an exception, and a smoother and an upsampler that
    report the given flags and leave the path as it is. *)
Definition collaborators (r : CreatePathResult) (graph : option string)
                         (smooth_ok upsample_ok : bool) : Externals :=
  {| Facade.fromString := fromString;
     Facade.toString := toString;
     optimizer_defaults := [];
     smoother_defaults := [];
     optimizer_params_get := fun _ m => (inr [], m);
     smoother_params_get := fun _ m => (inr [], m);
     Facade.getYaw := getYaw;
     Facade.worldToMap := worldToMap;
     downsample := fun d _ => ds_costmap d;
     createGraph := fun _ _ _ _ _ => graph;
     createPath := fun _ => r;
     smooth := fun _ path _ _ => (smooth_ok, path);
     upsample := fun _ path _ _ => (upsample_ok, path) |}.

(** Thirteen cells from the goal cell (9, 3) back to the start cell
    (0, 0): up the last column, then along the bottom row. *)
Definition long_path : list (Q * Q) :=
  [(9, 3); (9, 2); (9, 1); (9, 0); (8, 0); (7, 0); (6, 0); (5, 0);
   (4, 0); (3, 0); (2, 0); (1, 0); (0, 0)].

(** Its four downsampled world points, and those after hook removal. *)
Definition long_world : list Vector2d := path_to_world true long_path costmap.

Definition long_hooked : list Vector2d :=
  match removeHook long_world with
  | Some hooked => hooked
  | None => []
  end.
End Demo.

(** * Theorems *)

(** ** The validity check *)

(** C5. [isNodeValid] answers [false] exactly when the cell cost is
    OCCUPIED or INSCRIBED, or is UNKNOWN while unknown cells may not be
    traversed; with INSCRIBED the smallest of the three sentinels, every
    cost strictly below INSCRIBED is valid. *)
Theorem isNodeValid_spec (OCCUPIED INSCRIBED UNKNOWN : Z)
    (n : Node.NodeSE2) (traverse_unknown : bool) :
  (INSCRIBED < OCCUPIED)%Z ->
  (INSCRIBED < UNKNOWN)%Z ->
  (Node.isNodeValid OCCUPIED INSCRIBED UNKNOWN n traverse_unknown = false <->
     Node.getCost n = OCCUPIED \/ Node.getCost n = INSCRIBED \/
     (Node.getCost n = UNKNOWN /\ traverse_unknown = false))
  /\ ((Node.getCost n < INSCRIBED)%Z ->
      Node.isNodeValid OCCUPIED INSCRIBED UNKNOWN n traverse_unknown = true).
Proof.
  intros Hocc Hunk. unfold Node.isNodeValid.
  destruct (Z.eqb_spec (Node.getCost n) OCCUPIED) as [Ho | Ho];
    destruct (Z.eqb_spec (Node.getCost n) INSCRIBED) as [Hi | Hi];
    destruct (Z.eqb_spec (Node.getCost n) UNKNOWN) as [Hu | Hu];
    destruct traverse_unknown; simpl; split;
    try (intros; lia);
    try (split; [ intros _; tauto | reflexivity ]);
    try (split; [ intros _; auto | reflexivity ]);
    try (split; [ discriminate | intros [? | [? | [? ?]]]; congruence ]).
Qed.

Lemma isNodeValid_spec_witness :
  (Node.isNodeValid 254 253 255 (Node.new 255 0) false = false <->
     Node.getCost (Node.new 255 0) = 254%Z \/
     Node.getCost (Node.new 255 0) = 253%Z \/
     (Node.getCost (Node.new 255 0) = 255%Z /\ false = false))
  /\ ((Node.getCost (Node.new 255 0) < 253)%Z ->
      Node.isNodeValid 254 253 255 (Node.new 255 0) false = true).
Proof. apply (isNodeValid_spec 254 253 255 (Node.new 255 0) false); lia. Defined.

(** ** Motion tables *)

Section MotionFacts.
Import Motion.
Local Open Scope R_scope.

Lemma ceilR_in (x : R) (z : Z) : IZR z - 1 < x <= IZR z -> ceilR x = z.
Proof.
  intros [Hlo Hhi]. unfold ceilR.
  rewrite <- (Int_part_spec (- x) (- z)); [ lia | ].
  rewrite opp_IZR. lra.
Qed.

Lemma ceilR_1 : ceilR 1 = 1%Z.
Proof. apply ceilR_in. lra. Qed.

(** The three-way test of the source and the two-way rule of the
    specification select the same angle. *)
Lemma turning_angle_spec (n : Z) (r : R) : turning_angle n r = spec_angle n r.
Proof.
  unfold turning_angle, spec_angle, sqrt_2.
  set (angle := 2 * asin (sqrt 2 / (2 * r))).
  set (bin := 2 * PI / IZR n).
  destruct (Rlt_dec angle bin) as [Hlt | Hnlt]; [ reflexivity | ].
  destruct (Rgt_dec angle bin) as [Hgt | Hngt]; [ cbv zeta; ring | ].
  assert (Heq : angle = bin) by lra.
  rewrite Heq.
  destruct (Req_dec bin 0) as [Hz | Hnz].
  - rewrite Hz. ring.
  - replace (bin / bin) with 1 by (field; exact Hnz).
    rewrite ceilR_1. ring.
Qed.

Lemma asin_angle_le_PI (x : R) : 2 * asin x <= PI.
Proof. pose proof (asin_bound x). lra. Qed.

Lemma turning_angle_one_bin (r : R) : turning_angle 1 r = 2 * PI.
Proof.
  unfold turning_angle.
  pose proof (asin_angle_le_PI (sqrt_2 / (2 * r))) as Hle.
  pose proof PI_RGT_0 as Hpi.
  replace (2 * PI / 1) with (2 * PI) by field.
  destruct (Rlt_dec (2 * asin (sqrt_2 / (2 * r))) (2 * PI)) as [_ | Hn];
    [ reflexivity | lra ].
Qed.

(** A second failing shape: three bins and a turning radius of three
    quarters of a cell.  The minimal angle lies between one and two bins,
    the angle becomes [4 PI / 3], past the half turn, and the chord of the
    Left primitive has length [sqrt (27 / 16)], short of [sqrt 2]. *)
Lemma sqrt2_sq : sqrt 2 * sqrt 2 = 2. Proof. apply sqrt_sqrt; lra. Qed.
Lemma sqrt3_sq : sqrt 3 * sqrt 3 = 3. Proof. apply sqrt_sqrt; lra. Qed.

Lemma asin_above_PI3 : PI / 3 < asin (sqrt_2 / (2 * (3 / 4))).
Proof.
  unfold sqrt_2.
  pose proof sqrt2_sq as H2. pose proof sqrt3_sq as H3.
  pose proof (sqrt_lt_R0 2 ltac:(lra)) as P2.
  pose proof (sqrt_lt_R0 3 ltac:(lra)) as P3.
  pose proof PI_RGT_0 as Hpi.
  set (x := sqrt 2 / (2 * (3 / 4))).
  assert (Hx : x = 2 * sqrt 2 / 3) by (unfold x; field).
  assert (Hx1 : -1 <= x <= 1) by (rewrite Hx; split; nra).
  destruct (Rlt_dec (PI / 3) (asin x)) as [Hlt | Hn]; [ exact Hlt | exfalso ].
  pose proof (asin_bound x) as [Hb1 Hb2].
  assert (Hs : sin (asin x) <= sin (PI / 3)).
  { apply sin_incr_1; lra. }
  rewrite sin_asin in Hs by exact Hx1.
  rewrite sin_PI3 in Hs. rewrite Hx in Hs. nra.
Qed.

Lemma turning_angle_three_bins : turning_angle 3 (3 / 4) = 2 * PI / 3 * 2.
Proof.
  unfold turning_angle.
  pose proof asin_above_PI3 as Hlo.
  pose proof (asin_angle_le_PI (sqrt_2 / (2 * (3 / 4)))) as Hhi.
  pose proof PI_RGT_0 as Hpi.
  set (angle := 2 * asin (sqrt_2 / (2 * (3 / 4)))) in *.
  assert (Hlo' : 2 * PI / 3 < angle) by (unfold angle; lra).
  destruct (Rlt_dec angle (2 * PI / 3)) as [Hlt | _]; [ lra | ].
  destruct (Rgt_dec angle (2 * PI / 3)) as [_ | Hn]; [ | lra ].
  cbv zeta. rewrite (ceilR_in _ 2); [ reflexivity | ].
  assert (Hq : angle / (2 * PI / 3) = angle * (3 / (2 * PI))) by (field; lra).
  rewrite Hq.
  assert (Hinv : 0 < 3 / (2 * PI)) by (apply Rdiv_lt_0_compat; lra).
  assert (H1 : (2 * PI / 3) * (3 / (2 * PI)) = 1) by (field; lra).
  assert (H2 : PI * (3 / (2 * PI)) = 3 / 2) by (field; lra).
  split; simpl; nra.
Qed.

Lemma sin_4PI3 : sin (2 * PI / 3 * 2) = - (sqrt 3 / 2).
Proof.
  replace (2 * PI / 3 * 2) with (PI / 3 + PI) by field.
  rewrite neg_sin, sin_PI3. reflexivity.
Qed.

Lemma cos_4PI3 : cos (2 * PI / 3 * 2) = - (1 / 2).
Proof.
  replace (2 * PI / 3 * 2) with (PI / 3 + PI) by field.
  rewrite neg_cos, cos_PI3. reflexivity.
Qed.

Lemma initDubin_three_bins_short_chord (size_x : Z) :
  exists p : Pose,
    In p (projections (initDubin size_x 3 (3 / 4)))
    /\ _x p <> 0 /\ ~ leaves_cell p.
Proof.
  unfold initDubin. rewrite turning_angle_three_bins.
  eexists. split; [ right; left; reflexivity | ].
  unfold leaves_cell, planar_norm, delta_x, delta_y. simpl.
  rewrite sin_4PI3, cos_4PI3.
  pose proof sqrt3_sq as H3.
  pose proof (sqrt_lt_R0 3 ltac:(lra)) as P3.
  split; [ nra | ].
  replace (3 / 4 * - (sqrt 3 / 2) * (3 / 4 * - (sqrt 3 / 2)) +
           (3 / 4 * - (1 / 2) - 3 / 4) * (3 / 4 * - (1 / 2) - 3 / 4))
    with (27 / 16) by nra.
  intros H. pose proof (sqrt_lt_1 (27 / 16) 2 ltac:(lra) ltac:(lra) ltac:(lra)). lra.
Qed.

(** The Balkcom-Mason table does what its comment says: a primitive either
    leaves the cell or is a spin in place by one bin. *)
Lemma initBalkcomMason_primitives (size_x n : Z) :
  n <> 0%Z ->
  Forall (fun p => leaves_cell p \/ (_x p = 0 /\ _y p = 0 /\ _theta p <> 0))
         (projections (initBalkcomMason size_x n)).
Proof.
  intros Hn.
  pose proof sqrt2_sq as H2. pose proof PI_RGT_0 as Hpi.
  assert (Hbin : 2 * PI / IZR n <> 0).
  { apply Rmult_integral_contrapositive_currified; [ lra | ].
    apply Rinv_neq_0_compat. apply not_0_IZR. exact Hn. }
  assert (Hf : sqrt 2 <= sqrt (sqrt_2 * sqrt_2 + 0 * 0)).
  { unfold sqrt_2. replace (sqrt 2 * sqrt 2 + 0 * 0) with 2 by lra. lra. }
  assert (Hb : sqrt 2 <= sqrt (- sqrt_2 * - sqrt_2 + 0 * 0)).
  { unfold sqrt_2. replace (- sqrt 2 * - sqrt 2 + 0 * 0) with 2 by lra. lra. }
  unfold initBalkcomMason, leaves_cell, planar_norm. simpl.
  repeat (apply List.Forall_cons;
          [ simpl;
            first [ left; assumption
                  | right; repeat split; try reflexivity; lra ]
          | ]).
  apply List.Forall_nil.
Qed.
End MotionFacts.

(** C4. [initDubin] builds exactly the ordered list
    [(sqrt 2, 0, 0); (dx, dy, +angle); (dx, -dy, -angle)] of the
    specification, with the specification's rule for [angle]; the grid
    width and the number of bins are stored unchanged. *)
Theorem initDubin_primitives (size_x n_angles : Z) (r_min : R) :
  Motion.projections (Motion.initDubin size_x n_angles r_min)
    = Motion.spec_dubin_primitives n_angles r_min
  /\ Motion.size_x (Motion.initDubin size_x n_angles r_min) = size_x
  /\ Motion.num_angle_quantization (Motion.initDubin size_x n_angles r_min)
     = n_angles.
Proof.
  unfold Motion.initDubin, Motion.spec_dubin_primitives,
    Motion.delta_x, Motion.delta_y, Motion.sqrt_2; simpl.
  rewrite turning_angle_spec. repeat split.
Qed.

(** C3, at the failing input.  With a single angular bin (the default of
    [angle_quantization_bins]) the turning angle is a full turn, so the
    Left primitive of the Dubin table is [(0, 0, 2 PI)]: its planar
    displacement is zero and it does not leave the cell. *)
Theorem initDubin_one_bin_stays_in_cell (size_x : Z) :
  exists p : Motion.Pose,
    Motion.projections (Motion.initDubin size_x 1 1) !! 1%nat = Some p
    /\ Motion._x p = 0%R /\ Motion._y p = 0%R
    /\ Motion._theta p = (2 * PI)%R
    /\ ~ Motion.leaves_cell p.
Proof.
  unfold Motion.initDubin. rewrite turning_angle_one_bin.
  eexists; split; [ reflexivity | ]. simpl.
  unfold Motion.delta_x, Motion.delta_y, Motion.leaves_cell, Motion.planar_norm.
  simpl. rewrite sin_2PI, cos_2PI.
  repeat split; try lra.
  replace (1 * 0 * (1 * 0) + (1 * 1 - 1) * (1 * 1 - 1))%R with 0%R by ring.
  rewrite sqrt_0. intros H.
  pose proof (sqrt_lt_R0 2 ltac:(lra)). lra.
Qed.


(** ** The facade: [createPlan] *)

Section CreatePlanFacts.
Import Facade.
Variable X : Externals.
Variables (p : SmacPlanner) (env : Env) (start goal : PoseStamped).

Ltac run_plan :=
  unfold createPlan, createPlan_body;
  unfold mbind, Prog_bind, emit, leave, defined, mret, Prog_ret; simpl.

Lemma createPlan_not_found (a_star : AStarAlgorithm) (path : IndexPath) (n : Z) :
  _a_star p = Some a_star ->
  graph_created X p a_star ->
  createPath X (request X p env start goal a_star) = PathNotFound path n ->
  createPlan X p env start goal =
    (search_events X p env start goal ++
       [EvLog (failure_warning p
                 (if (n <? getMaxIterations a_star)%Z
                  then "no valid path found" else "exceeded maximum iterations"))],
     Return {| plan_header := plan_stamp p env; poses := [] |}).
Proof.
  intros Ha Hg Hp. unfold graph_created in Hg.
  run_plan. rewrite Ha. simpl. rewrite Hg. simpl. rewrite Hp.
  destruct (n <? getMaxIterations a_star)%Z; reflexivity.
Qed.

Lemma createPlan_short_path (a_star : AStarAlgorithm) (smoother : Smoother)
      (path : IndexPath) (n : Z) :
  _a_star p = Some a_star ->
  graph_created X p a_star ->
  createPath X (request X p env start goal a_star) = PathFound path n ->
  _smoother p = Some smoother ->
  (length (path_to_world true path (planning_costmap X p)) < 4)%nat ->
  createPlan X p env start goal =
    (search_events X p env start goal ++
       raw_publication env
         (plan_of p env (path_to_world true path (planning_costmap X p))),
     Return (plan_of p env (path_to_world true path (planning_costmap X p)))).
Proof.
  intros Ha Hg Hp Hs Hlen. unfold graph_created in Hg.
  apply Nat.ltb_lt in Hlen.
  run_plan. rewrite Ha. simpl. rewrite Hg. simpl. rewrite Hp. simpl.
  rewrite Hs. simpl. unfold raw_publication, plan_of.
  destruct (0 <? raw_plan_subscribers env)%Z; simpl; rewrite Hlen; reflexivity.
Qed.

Lemma createPlan_without_smoother (a_star : AStarAlgorithm)
      (path : IndexPath) (n : Z) :
  _a_star p = Some a_star ->
  graph_created X p a_star ->
  createPath X (request X p env start goal a_star) = PathFound path n ->
  _smoother p = None ->
  createPlan X p env start goal =
    (search_events X p env start goal ++
       raw_publication env
         (plan_of p env (path_to_world false path (planning_costmap X p))),
     Return (plan_of p env (path_to_world false path (planning_costmap X p)))).
Proof.
  intros Ha Hg Hp Hs. unfold graph_created in Hg.
  run_plan. rewrite Ha. simpl. rewrite Hg. simpl. rewrite Hp. simpl.
  rewrite Hs. simpl. unfold raw_publication, plan_of.
  destruct (0 <? raw_plan_subscribers env)%Z; reflexivity.
Qed.

(** Whatever path the call takes, the engine is given its goal once,
    right after its start, unless the graph could not be built. *)
Lemma createPlan_setGoal_calls :
  setGoal_calls (createPlan X p env start goal).1 =
    match _a_star p with
    | None => []
    | Some a_star =>
        match createGraph X a_star
                (getSizeInCellsX (planning_costmap X p))
                (getSizeInCellsY (planning_costmap X p))
                (_angle_quantizations p)
                (getCharMap (planning_costmap X p)) with
        | Some _ => []
        | None => [goal_cell X p env start goal]
        end
    end.
Proof.
  unfold createPlan, createPlan_body.
  generalize (goal_cell X p env start goal) as g.
  generalize (start_cell X p env start) as s.
  intros [[sx sy] sb] [[gx gy] gb].
  unfold mbind, Prog_bind, emit, leave, defined, mret, Prog_ret; simpl.
  destruct (_a_star p) as [a_star | ]; simpl; [ | reflexivity ].
  destruct (createGraph X a_star _ _ _ _); simpl; [ reflexivity | ].
  destruct (createPath X _) as [path n | path n | what]; simpl.
  - destruct (0 <? raw_plan_subscribers env)%Z; simpl;
      destruct (_smoother p) as [sm | ]; simpl; try reflexivity;
      match goal with |- context [(?a <? 4)%nat] => destruct (a <? 4)%nat end;
      simpl; try reflexivity;
      destruct (smooth X sm _ _ _) as [[ | ] sp]; simpl; try reflexivity;
      destruct (removeHook sp) as [hp | ]; simpl; try reflexivity;
      destruct (0 <? smoothed_plan_subscribers env)%Z; simpl;
      repeat match goal with
             | |- context [write_poses ?f ?a ?b] =>
                 destruct (write_poses f a b); simpl
             | |- context [_upsampler p] =>
                 destruct (_upsampler p) as [up | ]; simpl
             | |- context [upsample X ?u ?a ?b ?c] =>
                 destruct (upsample X u a b c) as [[ | ] upath]; simpl
             | |- context [fill_poses ?f ?a ?b] =>
                 destruct (fill_poses f a b); simpl
             end; reflexivity.
  - destruct (n <? getMaxIterations a_star)%Z; reflexivity.
  - reflexivity.
Qed.
End CreatePlanFacts.

Section ConversionFacts.
Import Facade.

Lemma convert_loop_prefix (smoothing : bool) (path tail : IndexPath)
      (costmap : Costmap2D) (k : nat) :
  (k <= length path)%nat ->
  convert_loop smoothing (path ++ tail) costmap k
    = convert_loop smoothing path costmap k.
Proof.
  induction k as [ | i IH]; intros Hk; [ reflexivity | ].
  cbn [convert_loop]. rewrite IH by lia.
  rewrite lookup_app_l by lia. reflexivity.
Qed.

(** Without a smoother the loop converts every cell, last index first. *)
Lemma path_to_world_all (path : IndexPath) (costmap : Costmap2D) :
  path_to_world false path costmap
    = map (fun c => getWorldCoords c.1 c.2 costmap) (rev path).
Proof.
  unfold path_to_world.
  induction path as [ | c path IH] using rev_ind; [ reflexivity | ].
  rewrite rev_unit, length_app, Nat.add_1_r. cbn [length convert_loop andb].
  rewrite list_lookup_middle by reflexivity.
  rewrite convert_loop_prefix by lia.
  destruct c as [mx my]. simpl. rewrite IH. reflexivity.
Qed.

Lemma waypoints_plan_of (p : SmacPlanner) (env : Env) (l : list Vector2d) :
  waypoints (plan_of p env l) = l.
Proof.
  unfold waypoints, plan_of. simpl. rewrite map_map. simpl.
  induction l as [ | [a b] l IH]; simpl; [ reflexivity | ].
  rewrite IH. reflexivity.
Qed.

(** The sibling path of the downsampling one: with no smoother, a path
    found by the search that runs from the goal cell to the start cell
    gives a plan from the centre of the start cell to the centre of the
    goal cell. *)
Lemma createPlan_endpoints_without_smoother
      (X : Externals) (p : SmacPlanner) (env : Env) (start goal : PoseStamped)
      (a_star : AStarAlgorithm) (g s : Q * Q) (between : IndexPath) (n : Z) :
  _a_star p = Some a_star ->
  graph_created X p a_star ->
  createPath X (request X p env start goal a_star)
    = PathFound (g :: between ++ [s]) n ->
  _smoother p = None ->
  exists t plan,
    createPlan X p env start goal = (t, Return plan)
    /\ head (waypoints plan) = Some (getWorldCoords s.1 s.2 (planning_costmap X p))
    /\ last (waypoints plan) = Some (getWorldCoords g.1 g.2 (planning_costmap X p)).
Proof.
  intros Ha Hg Hp Hs.
  rewrite (createPlan_without_smoother X p env start goal a_star _ n Ha Hg Hp Hs).
  eexists; eexists; split; [ reflexivity | ].
  rewrite waypoints_plan_of, path_to_world_all.
  change (g :: between ++ [s]) with ((g :: between) ++ [s]).
  rewrite rev_unit. simpl. split; [ reflexivity | ].
  rewrite map_app. simpl.
  change (?a :: ?l ++ [?b]) with ((a :: l) ++ [b]).
  apply last_snoc.
Qed.
End ConversionFacts.

(** C1, at the failing input.  On the free 10 x 10 grid with smoothing
    enabled (the default), start at (0.5, 0.5) and goal at (5.5, 0.5): the
    search returns the six cells from the goal cell (5, 0) back to the
    start cell (0, 0); the loop keeps indices 4 and 0 only, so the plan
    begins at the centre of cell (1, 0) and not at the start. *)
Theorem createPlan_downsampling_drops_start :
  let found := Facade.PathFound [(5, 0); (4, 0); (3, 0); (2, 0); (1, 0); (0, 0)]%Q 6 in
  let X := Demo.externals found in
  let p := Demo.planner found [] in
  let start := Demo.pose_at 0.5 0.5 Demo.facing_east in
  let goal := Demo.pose_at 5.5 0.5 Demo.facing_east in
  Facade.start_cell X p Demo.env start = (0, 0, 0)%Z
  /\ Facade.goal_cell X p Demo.env start goal = (5, 0, 0)%Z
  /\ exists plan,
       (Facade.createPlan X p Demo.env start goal).2 = Facade.Return plan
       /\ Facade.waypoints plan
          = [Facade.getWorldCoords 1 0 Demo.costmap; Facade.getWorldCoords 5 0 Demo.costmap]
       /\ ~ (Facade.vx (Facade.getWorldCoords 1 0 Demo.costmap) == 0.5)%Q
       /\ (Facade.vx (Facade.getWorldCoords 0 0 Demo.costmap) == 0.5)%Q.
Proof.
  cbv zeta. split; [ vm_compute; reflexivity | ].
  split; [ vm_compute; reflexivity | ].
  eexists. split; [ vm_compute; reflexivity | ].
  split; [ vm_compute; reflexivity | ].
  split; vm_compute; [ intros H; discriminate H | reflexivity ].
Qed.

(** C2, at the failing input.  With four angular bins, a start facing east
    (yaw 0) and a goal facing west (yaw pi): [setGoal] receives bin 0, the
    bin of the start's yaw, while the goal's own yaw lies in bin 2. *)
Theorem createPlan_goal_bin_uses_start_yaw :
  let found := Facade.PathFound [(3, 0); (2, 0); (1, 0); (0, 0)]%Q 4 in
  let X := Demo.externals found in
  let p := Demo.planner found [("GridBased.angle_quantization_bins"%string, Facade.PInt 4)] in
  let start := Demo.pose_at 0.5 0.5 Demo.facing_east in
  let goal := Demo.pose_at 3.5 0.5 Demo.facing_west in
  Facade.setGoal_calls (Facade.createPlan X p Demo.env start goal).1 = [(3, 0, 0)%Z]
  /\ Facade.orientation_bin p (Facade.getYaw X (Facade.orientation (Facade.pose start))) = 0%Z
  /\ Facade.orientation_bin p (Facade.getYaw X (Facade.orientation (Facade.pose goal))) = 2%Z.
Proof.
  cbv zeta. repeat split; vm_compute; reflexivity.
Qed.

(** C6.  When [createPath] returns [false], [createPlan] returns a plan
    without poses and logs exactly one warning, whose reason is
    "no valid path found" if the iteration count is strictly below the
    engine's maximum and "exceeded maximum iterations" otherwise. *)
Theorem createPlan_failure_warning
    (X : Facade.Externals) (p : Facade.SmacPlanner) (env : Facade.Env)
    (start goal : Facade.PoseStamped)
    (a_star : Facade.AStarAlgorithm) (path : Facade.IndexPath) (n : Z) :
  Facade._a_star p = Some a_star ->
  Facade.graph_created X p a_star ->
  Facade.createPath X (Facade.request X p env start goal a_star)
    = Facade.PathNotFound path n ->
  exists t plan,
    Facade.createPlan X p env start goal = (t, Facade.Return plan)
    /\ Facade.poses plan = []
    /\ Facade.warnings t =
         [Facade.failure_warning p
            (if (n <? Facade.getMaxIterations a_star)%Z
             then "no valid path found" else "exceeded maximum iterations")].
Proof.
  intros Ha Hg Hp.
  rewrite (createPlan_not_found X p env start goal a_star path n Ha Hg Hp).
  eexists; eexists; split; [ reflexivity | ].
  split; reflexivity.
Qed.

Lemma createPlan_failure_warning_witness :
  let r := Facade.PathNotFound [] 7 in
  let params := [("GridBased.max_iterations"%string, Facade.PInt 7)] in
  let start := Demo.pose_at 0.5 0.5 Demo.facing_east in
  let goal := Demo.pose_at 5.5 0.5 Demo.facing_east in
  exists t plan,
    Facade.createPlan (Demo.externals r) (Demo.planner r params) Demo.env start goal
      = (t, Facade.Return plan)
    /\ Facade.poses plan = []
    /\ Facade.warnings t =
         [Facade.failure_warning (Demo.planner r params)
            (if (7 <? Facade.getMaxIterations (Demo.engine r params))%Z
             then "no valid path found" else "exceeded maximum iterations")].
Proof.
  cbv zeta.
  apply (createPlan_failure_warning _ _ _ _ _
           (Demo.engine (Facade.PathNotFound [] 7)
              [("GridBased.max_iterations"%string, Facade.PInt 7)]) [] 7);
    vm_compute; reflexivity.
Defined.

(** C9.  With a smoother configured, a search result whose downsampled
    world path has fewer than four points is returned as the plan stamped
    from that path; the smoother, the hook removal and the upsampler do
    not appear among the events of the call. *)
Theorem createPlan_short_path_unsmoothed
    (X : Facade.Externals) (p : Facade.SmacPlanner) (env : Facade.Env)
    (start goal : Facade.PoseStamped)
    (a_star : Facade.AStarAlgorithm) (smoother : Facade.Smoother)
    (path : Facade.IndexPath) (n : Z) :
  Facade._a_star p = Some a_star ->
  Facade.graph_created X p a_star ->
  Facade.createPath X (Facade.request X p env start goal a_star)
    = Facade.PathFound path n ->
  Facade._smoother p = Some smoother ->
  (length (Facade.path_to_world true path (Facade.planning_costmap X p)) < 4)%nat ->
  exists t,
    Facade.createPlan X p env start goal =
      (t, Facade.Return
            (Facade.plan_of p env
               (Facade.path_to_world true path (Facade.planning_costmap X p))))
    /\ Forall (fun e => Facade.is_refinement e = false) t.
Proof.
  intros Ha Hg Hp Hs Hlen.
  rewrite (createPlan_short_path X p env start goal a_star smoother path n
             Ha Hg Hp Hs Hlen).
  eexists; split; [ reflexivity | ].
  apply Forall_app. split.
  - repeat constructor.
  - unfold Facade.raw_publication.
    destruct (0 <? Facade.raw_plan_subscribers env)%Z; repeat constructor.
Qed.

Lemma createPlan_short_path_unsmoothed_witness :
  let r := Facade.PathFound [(5, 0); (4, 0); (3, 0); (2, 0); (1, 0); (0, 0)]%Q 6 in
  let start := Demo.pose_at 0.5 0.5 Demo.facing_east in
  let goal := Demo.pose_at 5.5 0.5 Demo.facing_east in
  exists t,
    Facade.createPlan (Demo.externals r) (Demo.planner r []) Demo.env start goal =
      (t, Facade.Return
            (Facade.plan_of (Demo.planner r []) Demo.env
               (Facade.path_to_world true
                  [(5, 0); (4, 0); (3, 0); (2, 0); (1, 0); (0, 0)]%Q
                  (Facade.planning_costmap (Demo.externals r) (Demo.planner r [])))))
    /\ Forall (fun e => Facade.is_refinement e = false) t.
Proof.
  cbv zeta.
  apply (createPlan_short_path_unsmoothed _ _ _ _ _
           (Demo.engine (Facade.PathFound
                           [(5, 0); (4, 0); (3, 0); (2, 0); (1, 0); (0, 0)]%Q 6) [])
           {| Facade.smoother_options := [] |} _ 6);
    try (vm_compute; reflexivity).
  vm_compute. lia.
Defined.

(** ** Hook removal *)

Section RemoveHookFacts.
Import Facade.

Lemma Qlt_bool_irrefl (q : Q) : Qlt_bool q q = false.
Proof.
  unfold Qlt_bool. apply negb_false_iff, Qle_bool_iff, Qle_refl.
Qed.

Lemma last_three (path : list Vector2d) :
  (3 <= length path)%nat ->
  exists front p3 p2 p1, path = front ++ [p3; p2; p1].
Proof.
  intros Hlen.
  exists (take (length path - 3) path).
  assert (Hd : length (drop (length path - 3) path) = 3%nat)
    by (rewrite length_drop; lia).
  destruct (drop (length path - 3) path) as [ | p3 [ | p2 [ | p1 [ | ? ?]]]] eqn:E;
    simpl in Hd; try lia.
  exists p3, p2, p1. rewrite <- E. symmetry. apply take_drop.
Qed.

(** One application on a path written with its last three points. *)
Lemma removeHook_last_three (front : list Vector2d) (p3 p2 p1 : Vector2d) :
  removeHook (front ++ [p3; p2; p1]) =
    Some (front ++
            [p3;
             if Qlt_bool (squaredDistance (vdiv (vadd p3 p1) 2) p1)
                         (squaredDistance p2 p1)
             then vdiv (vadd p3 p1) 2 else p2;
             p1]).
Proof.
  unfold removeHook. rewrite length_app. cbn [length].
  replace (length front + 3 <? 3)%nat with false
    by (symmetry; apply Nat.ltb_ge; lia).
  rewrite !lookup_app_r by lia.
  replace (length front + 3 - 3 - length front)%nat with 0%nat by lia.
  replace (length front + 3 - 2 - length front)%nat with 1%nat by lia.
  replace (length front + 3 - 1 - length front)%nat with 2%nat by lia.
  cbn [lookup list_lookup].
  destruct (Qlt_bool _ _); [ | reflexivity ].
  rewrite insert_app_r_alt by lia.
  replace (length front + 3 - 2 - length front)%nat with 1%nat by lia.
  reflexivity.
Qed.
End RemoveHookFacts.

(** C8.  On a path of at least three points [removeHook] is defined and
    idempotent: a second application returns the result of the first.
    The first application replaces the second-to-last point by the
    midpoint of its neighbours exactly when that point is farther from the
    last point than the midpoint is, and the test fails on the result. *)
Theorem removeHook_idempotent (path : list Facade.Vector2d) :
  (3 <= length path)%nat ->
  exists once,
    Facade.removeHook path = Some once
    /\ Facade.removeHook once = Some once
    /\ exists front p3 p2 p1,
         let mid := Facade.vdiv (Facade.vadd p3 p1) 2 in
         let hooked :=
           Facade.Qlt_bool (Facade.squaredDistance mid p1)
                           (Facade.squaredDistance p2 p1) in
         path = front ++ [p3; p2; p1]
         /\ once = front ++ [p3; if hooked then mid else p2; p1]
         /\ Facade.Qlt_bool (Facade.squaredDistance mid p1)
              (Facade.squaredDistance (if hooked then mid else p2) p1) = false.
Proof.
  intros Hlen.
  destruct (last_three path Hlen) as (front & p3 & p2 & p1 & ->).
  eexists. split; [ apply removeHook_last_three | ].
  assert (Htest :
    Facade.Qlt_bool
      (Facade.squaredDistance (Facade.vdiv (Facade.vadd p3 p1) 2) p1)
      (Facade.squaredDistance
         (if Facade.Qlt_bool
               (Facade.squaredDistance (Facade.vdiv (Facade.vadd p3 p1) 2) p1)
               (Facade.squaredDistance p2 p1)
          then Facade.vdiv (Facade.vadd p3 p1) 2 else p2) p1) = false).
  { destruct (Facade.Qlt_bool _ (Facade.squaredDistance p2 p1)) eqn:E;
      [ apply Qlt_bool_irrefl | exact E ]. }
  split.
  - rewrite removeHook_last_three. rewrite Htest. reflexivity.
  - exists front, p3, p2, p1. cbv zeta. repeat split. exact Htest.
Qed.

Lemma removeHook_idempotent_witness :
  let path := [Facade.vec 0 0; Facade.vec 1 0; Facade.vec 2 0;
               Facade.vec 4 1; Facade.vec 3 0] in
  exists once,
    Facade.removeHook path = Some once
    /\ Facade.removeHook once = Some once
    /\ exists front p3 p2 p1,
         let mid := Facade.vdiv (Facade.vadd p3 p1) 2 in
         let hooked :=
           Facade.Qlt_bool (Facade.squaredDistance mid p1)
                           (Facade.squaredDistance p2 p1) in
         path = front ++ [p3; p2; p1]
         /\ once = front ++ [p3; if hooked then mid else p2; p1]
         /\ Facade.Qlt_bool (Facade.squaredDistance mid p1)
              (Facade.squaredDistance (if hooked then mid else p2) p1) = false.
Proof.
  cbv zeta.
  apply (removeHook_idempotent
           [Facade.vec 0 0; Facade.vec 1 0; Facade.vec 2 0;
            Facade.vec 4 1; Facade.vec 3 0]).
  simpl. lia.
Defined.

Example removeHook_straightens :
  Facade.removeHook [Facade.vec 0 0; Facade.vec 1 0; Facade.vec 2 0;
                     Facade.vec 4 1; Facade.vec 3 0]
  = Some [Facade.vec 0 0; Facade.vec 1 0; Facade.vec 2 0;
          Facade.vdiv (Facade.vadd (Facade.vec 2 0) (Facade.vec 3 0)) 2;
          Facade.vec 3 0].
Proof. reflexivity. Qed.

(** ** The facade: [configure] *)

Section ConfigureRules.
Import Facade.
Context {A : Type}.
Variables (Q : A -> NodeState -> Prop) (E : Z -> NodeState -> Prop).

Lemma returns_bind {B} (c : Prog NodeState Abort B)
      (k : B -> Prog NodeState Abort A) (s : NodeState) :
  returns c s (fun b s' => returns (k b) s' Q E) E ->
  returns (c ≫= k) s Q E.
Proof.
  unfold returns, mbind, Prog_bind.
  destruct (c s) as [[[code | what] | b] s']; auto.
Qed.

Lemma returns_mret (a : A) (s : NodeState) : Q a s -> returns (mret a) s Q E.
Proof. auto. Qed.

Lemma returns_exit (code : Z) (s : NodeState) :
  E code s -> returns (leave (Exit code)) s Q E.
Proof. auto. Qed.
End ConfigureRules.

Section ConfigureSteps.
Import Facade.
Variables (Q : unit -> NodeState -> Prop) (E : Z -> NodeState -> Prop).

(** Declaring a parameter keeps the log and every parameter already set. *)
Lemma returns_declare (name : string) (default : ParameterValue) (s : NodeState) :
  (forall s',
      logged s' = logged s ->
      (forall k v, parameters s !! k = Some v -> parameters s' !! k = Some v) ->
      Q tt s') ->
  returns (declare_parameter_if_not_declared name default) s Q E.
Proof.
  intros H. unfold returns, declare_parameter_if_not_declared.
  destruct (parameters s !! name) eqn:Hn; apply H; simpl; auto.
  intros k v Hk. rewrite lookup_insert_ne; [ exact Hk | ].
  intros ->. rewrite Hn in Hk. discriminate Hk.
Qed.

Lemma returns_log (sev : Severity) (fmt : string) (a : list LogArg) (s : NodeState) :
  Q tt {| parameters := parameters s;
          logged := logged s ++ [ {| severity := sev; format := fmt; args := a |} ] |} ->
  returns (log_to_node sev fmt a) s Q E.
Proof. auto. Qed.
End ConfigureSteps.

Section ConfigureReads.
Import Facade.
Variable E : Z -> NodeState -> Prop.

Lemma returns_get_double (name : string) (s : NodeState) (Q : Q -> NodeState -> Prop) :
  (forall d, Q d s) -> returns (get_parameter_double name) s Q E.
Proof.
  intros H. unfold returns, get_parameter_double, get_parameter, mbind, Prog_bind.
  destruct (parameters s !! name) as [[ | | | ] | ]; simpl; auto.
Qed.

Lemma returns_get_bool (name : string) (s : NodeState) (Q : bool -> NodeState -> Prop) :
  (forall b, Q b s) -> returns (get_parameter_bool name) s Q E.
Proof.
  intros H. unfold returns, get_parameter_bool, get_parameter, mbind, Prog_bind.
  destruct (parameters s !! name) as [[ | | | ] | ]; simpl; auto.
Qed.

(** An [int] read from a parameter lies in the range of [int]. *)
Lemma returns_get_int (name : string) (s : NodeState) (Q : Z -> NodeState -> Prop) :
  (forall i, (- 2 ^ 31 <= i < 2 ^ 31)%Z -> Q i s) ->
  returns (get_parameter_int name) s Q E.
Proof.
  intros H. unfold returns, get_parameter_int, get_parameter, mbind, Prog_bind.
  destruct (parameters s !! name) as [[ | | | ] | ]; simpl; auto.
  apply H. unfold to_int.
  pose proof (Z.mod_pos_bound (i + 2 ^ 31) (2 ^ 32) ltac:(lia)). lia.
Qed.

Lemma returns_get_string (name : string) (s : NodeState)
      (Q : string -> NodeState -> Prop) :
  (forall str, parameters s !! name = Some (PString str) -> Q str s) ->
  returns (get_parameter_string name) s Q E.
Proof.
  intros H. unfold returns, get_parameter_string, get_parameter, mbind, Prog_bind.
  destruct (parameters s !! name) as [[ | | | ] | ]; simpl; auto.
Qed.

Lemma returns_run_get g (s : NodeState) (Q : ParamStruct -> NodeState -> Prop) :
  (forall v m, Q v {| parameters := m; logged := logged s |}) ->
  returns (run_get g) s Q E.
Proof.
  intros H. unfold returns, run_get.
  destruct (g (parameters s)) as [[what | v] m]; auto.
Qed.
End ConfigureReads.

Section ConfigureOutcome.
Import Facade.
Variables (X : Externals) (name : string) (costmap_ros : Costmap2DROS).
Variable node : NodeState.

Ltac keep_parameters :=
  apply returns_bind, returns_declare;
  let s' := fresh "s" in
  let Hp := fresh "Hp" in
  intros s' _ Hp;
  match goal with
  | Hinv : forall k v, parameters node !! k = Some v -> parameters _ !! k = Some v |- _ =>
      assert (forall k v, parameters node !! k = Some v -> parameters s' !! k = Some v)
        by (intros ? ? ?; apply Hp, Hinv; assumption);
      clear Hinv Hp
  end.

Ltac in_log :=
  simpl;
  repeat (apply in_or_app;
          first [ right; left; reflexivity | left ]).

Ltac run :=
  repeat match goal with
    | |- returns (mret _) _ _ _ => apply returns_mret
    | |- returns (leave (Exit _)) _ _ _ => apply returns_exit
    | |- returns (log_to_node _ _ _) _ _ _ => apply returns_log
    | |- returns (run_get _) _ _ _ => apply returns_run_get; intros ? ?
    | |- returns (mbind _ _) _ _ _ => apply returns_bind
    | |- returns (if ?b then _ else _) _ _ _ => destruct b eqn:?
    | |- _ => progress cbn beta iota zeta
    end.

Lemma configure_outcome :
  returns (configure X name costmap_ros) node
    (fun p node' =>
       exists a given,
         _a_star p = Some a
         /\ getOnApproachMaxIterations a = INT_MAX
         /\ (getMaxIterations a <= INT_MAX)%Z
         /\ motion_model a = fromString X given
         /\ model_read X name node given node')
    (fun code node' =>
       code = (-1)%Z
       /\ In travel_cost_fatal (logged node')
       /\ exists given, model_read X name node given node').
Proof.
  unfold configure.
  assert (Hinv : forall k v,
             parameters node !! k = Some v -> parameters node !! k = Some v)
    by auto.
  revert Hinv. generalize node at 2 3 as s. intros s Hinv.
  keep_parameters. apply returns_bind, returns_get_double; intros tolerance.
  keep_parameters. apply returns_bind, returns_get_bool; intros downsample_costmap.
  keep_parameters. apply returns_bind, returns_get_int; intros downsampling_factor _.
  keep_parameters. apply returns_bind, returns_get_int; intros angle_quantizations _.
  keep_parameters. apply returns_bind, returns_get_bool; intros allow_unknown.
  keep_parameters. apply returns_bind, returns_get_int; intros max_iterations Hmax.
  keep_parameters. apply returns_bind, returns_get_double; intros travel_cost_scale.
  keep_parameters. apply returns_bind, returns_get_bool; intros smooth_path.
  keep_parameters. apply returns_bind, returns_get_bool; intros upsample_path.
  keep_parameters. apply returns_bind, returns_get_int; intros upsampling_ratio _.
  keep_parameters. apply returns_bind, returns_get_double; intros minimum_turning_radius.
  keep_parameters. apply returns_bind, returns_get_string; intros given Hgiven.
  assert (Hread : forall str,
             parameters node !! (name +:+ ".motion_model_for_search")
               = Some (PString str) -> given = str).
  { intros str Hs0.
    match goal with
    | Hinv : forall k v, parameters node !! k = Some v -> _ |- _ => apply Hinv in Hs0
    end.
    rewrite Hgiven in Hs0. injection Hs0 as ->. reflexivity. }
  clear Hgiven.
  change (INT_MAX <=? 0)%Z with false.
  apply returns_bind.
  destruct (fromString X given) eqn:Hmodel; run;
    try (split; [ reflexivity | ]; split; [ in_log | ];
         exists given; split; [ exact Hread | ];
         rewrite Hmodel; first [ discriminate | intros _; in_log ]);
    try (eexists; exists given;
         split; [ reflexivity | ];
         split; [ reflexivity | ];
         split; [ unfold INT_MAX; simpl; lia | ];
         split; [ symmetry; exact Hmodel | ];
         split; [ exact Hread | ];
         rewrite Hmodel; first [ discriminate | intros _; in_log ]).
Qed.
End ConfigureOutcome.

Lemma returns_weaken {A} (c : Prog Facade.NodeState Facade.Abort A)
      (s : Facade.NodeState)
      (Q Q' : A -> Facade.NodeState -> Prop) (E E' : Z -> Facade.NodeState -> Prop) :
  Facade.returns c s Q E ->
  (forall a s', Q a s' -> Q' a s') ->
  (forall code s', E code s' -> E' code s') ->
  Facade.returns c s Q' E'.
Proof.
  unfold Facade.returns.
  destruct (c s) as [[[code | what] | a] s']; auto.
Qed.

(** C7 as stated fails.  With the model string "FOO", which [fromString]
    does not recognise, [configure] returns a planner on the default
    configuration: it is not refused. *)
Lemma configure_unknown_model_not_refused :
  Demo.fromString "FOO" = MotionModel.UNKNOWN
  /\ ~ Facade.refuses_to_initialize
         (Facade.configure (Demo.externals (Facade.PathThrew "")) "GridBased"
            Demo.costmap_ros
            (Demo.node [("GridBased.motion_model_for_search"%string,
                         Facade.PString "FOO")])).
Proof.
  split; [ reflexivity | ].
  vm_compute. intros H. exact H.
Qed.

(** C7, amended.  When the string configured for
    [motion_model_for_search] is not recognised, [configure] logs a
    warning that quotes it and goes on: if it returns, the engine has been
    built with [MotionModel::UNKNOWN]; if it exits, it does so with code -1
    after the fatal message about the travel cost scale.  The model is
    rejected later, by the exception of [NodeSE2::initMotionModel]. *)
Theorem configure_unknown_model_warns
    (X : Facade.Externals) (name : string) (costmap_ros : Facade.Costmap2DROS)
    (node : Facade.NodeState) (given : string) :
  Facade.parameters node !! (name +:+ ".motion_model_for_search")
    = Some (Facade.PString given) ->
  Facade.fromString X given = MotionModel.UNKNOWN ->
  Facade.returns (Facade.configure X name costmap_ros) node
    (fun p node' =>
       (exists a, Facade._a_star p = Some a
                  /\ Facade.motion_model a = MotionModel.UNKNOWN)
       /\ In (Facade.unknown_model_warning given) (Facade.logged node'))
    (fun code node' =>
       code = (-1)%Z
       /\ In Facade.travel_cost_fatal (Facade.logged node')
       /\ In (Facade.unknown_model_warning given) (Facade.logged node'))
  /\ forall size_x n r,
       exists what,
         Motion.initMotionModel MotionModel.UNKNOWN size_x n r = inl what.
Proof.
  intros Hgiven Hunknown. split.
  - apply (returns_weaken _ _ _ _ _ _ (configure_outcome X name costmap_ros node)).
    + intros p node' (a & g & Ha & _ & _ & Hm & Hread & Hwarn).
      rewrite <- (Hread given Hgiven) in *.
      split; [ exists a; split; [ exact Ha | congruence ] | auto ].
    + intros code node' (Hc & Hf & g & Hread & Hwarn).
      rewrite <- (Hread given Hgiven) in *. auto.
  - intros size_x n r. eexists. reflexivity.
Qed.

Lemma configure_unknown_model_warns_witness :
  let node := Demo.node [("GridBased.motion_model_for_search"%string,
                          Facade.PString "FOO")] in
  Facade.returns
    (Facade.configure (Demo.externals (Facade.PathThrew "")) "GridBased"
       Demo.costmap_ros) node
    (fun p node' =>
       (exists a, Facade._a_star p = Some a
                  /\ Facade.motion_model a = MotionModel.UNKNOWN)
       /\ In (Facade.unknown_model_warning "FOO") (Facade.logged node'))
    (fun code node' =>
       code = (-1)%Z
       /\ In Facade.travel_cost_fatal (Facade.logged node')
       /\ In (Facade.unknown_model_warning "FOO") (Facade.logged node'))
  /\ forall size_x n r,
       exists what,
         Motion.initMotionModel MotionModel.UNKNOWN size_x n r = inl what.
Proof.
  cbv zeta.
  apply (configure_unknown_model_warns
           (Demo.externals (Facade.PathThrew "")) "GridBased" Demo.costmap_ros
           (Demo.node [("GridBased.motion_model_for_search"%string,
                        Facade.PString "FOO")]) "FOO");
    vm_compute; reflexivity.
Defined.

(** C10.  Whenever [configure] returns, the engine has been initialised
    with the largest [int] as its on-approach limit, whatever the
    parameters of the node are; the maximum number of iterations is never
    above it, so an on-approach count, which cannot exceed the iteration
    count, reaches its limit only once the iteration limit is reached. *)
Theorem configure_on_approach_limit
    (X : Facade.Externals) (name : string) (costmap_ros : Facade.Costmap2DROS)
    (node node' : Facade.NodeState) (p : Facade.SmacPlanner) :
  Facade.configure X name costmap_ros node = (inr p, node') ->
  exists a,
    Facade._a_star p = Some a
    /\ Facade.getOnApproachMaxIterations a = Facade.INT_MAX
    /\ (Facade.getMaxIterations a <= Facade.getOnApproachMaxIterations a)%Z
    /\ forall iterations approach : Z,
         (approach <= iterations)%Z ->
         (Facade.getOnApproachMaxIterations a <= approach)%Z ->
         (Facade.getMaxIterations a <= iterations)%Z.
Proof.
  intros Hrun.
  pose proof (configure_outcome X name costmap_ros node) as H.
  unfold Facade.returns in H. rewrite Hrun in H.
  destruct H as (a & g & Ha & Happroach & Hmax & _).
  exists a. rewrite Happroach.
  split; [ exact Ha | ]. split; [ reflexivity | ].
  split; [ exact Hmax | ]. intros; lia.
Qed.

Lemma configure_on_approach_limit_witness :
  let X := Demo.externals (Facade.PathThrew "") in
  let params := [("GridBased.max_on_approach_iterations"%string, Facade.PInt 5);
                 ("GridBased.max_iterations"%string, Facade.PInt 100)] in
  exists a,
    Facade._a_star (Demo.planner (Facade.PathThrew "") params) = Some a
    /\ Facade.getOnApproachMaxIterations a = Facade.INT_MAX
    /\ (Facade.getMaxIterations a <= Facade.getOnApproachMaxIterations a)%Z
    /\ forall iterations approach : Z,
         (approach <= iterations)%Z ->
         (Facade.getOnApproachMaxIterations a <= approach)%Z ->
         (Facade.getMaxIterations a <= iterations)%Z.
Proof.
  cbv zeta.
  apply (configure_on_approach_limit
           (Demo.externals (Facade.PathThrew "")) "GridBased" Demo.costmap_ros
           (Demo.node [("GridBased.max_on_approach_iterations"%string, Facade.PInt 5);
                       ("GridBased.max_iterations"%string, Facade.PInt 100)])
           (Facade.configure (Demo.externals (Facade.PathThrew "")) "GridBased"
              Demo.costmap_ros
              (Demo.node [("GridBased.max_on_approach_iterations"%string, Facade.PInt 5);
                          ("GridBased.max_iterations"%string, Facade.PInt 100)])).2).
  vm_compute. reflexivity.
Defined.

(** * Further properties of the code *)

Section MotionExtras.
Import Motion.
Local Open Scope R_scope.

Lemma ceilR_ge (x : R) : x <= IZR (ceilR x).
Proof.
  unfold ceilR. rewrite opp_IZR.
  pose proof (base_Int_part (- x)) as [H _]. lra.
Qed.

Lemma ceilR_pos (x : R) : 0 < x -> (1 <= ceilR x)%Z.
Proof.
  intros Hx. pose proof (ceilR_ge x) as H.
  assert (0 < IZR (ceilR x)) by lra.
  apply lt_IZR in H0. lia.
Qed.

Lemma bin_size_pos (n : Z) : (1 <= n)%Z -> 0 < bin_size n.
Proof.
  intros Hn. unfold bin_size.
  pose proof PI_RGT_0. apply Rdiv_lt_0_compat; [ lra | ].
  apply IZR_lt. lia.
Qed.

(** The turning angle is a whole, positive number of bins and is not
    below the angle whose chord is [sqrt 2]. *)
Lemma turning_angle_bins (n : Z) (r : R) :
  (1 <= n)%Z ->
  exists k : Z,
    (1 <= k)%Z
    /\ turning_angle n r = IZR k * bin_size n
    /\ 2 * asin (sqrt_2 / (2 * r)) <= turning_angle n r.
Proof.
  intros Hn. pose proof (bin_size_pos n Hn) as Hbin.
  unfold turning_angle. fold (bin_size n).
  set (angle := 2 * asin (sqrt_2 / (2 * r))).
  destruct (Rlt_dec angle (bin_size n)) as [Hlt | Hnlt].
  - exists 1%Z. split; [ lia | ]. split; lra.
  - destruct (Rgt_dec angle (bin_size n)) as [Hgt | Hngt].
    + cbv zeta. exists (ceilR (angle / bin_size n)).
      assert (Hq : 0 < angle / bin_size n) by (apply Rdiv_lt_0_compat; lra).
      split; [ apply ceilR_pos; exact Hq | ]. split; [ ring | ].
      pose proof (ceilR_ge (angle / bin_size n)) as Hc.
      apply (Rmult_le_compat_l (bin_size n)) in Hc; [ | lra ].
      replace (bin_size n * (angle / bin_size n)) with angle in Hc by (field; lra).
      exact Hc.
    + exists 1%Z. split; [ lia | ]. split; lra.
Qed.

Lemma div_nonneg (x y : R) : 0 <= x -> 0 < y -> 0 <= x / y.
Proof. intros Hx Hy. unfold Rdiv. apply Rle_mult_inv_pos; assumption. Qed.

Lemma ceilR_lt (x : R) : IZR (ceilR x) < x + 1.
Proof.
  unfold ceilR. rewrite opp_IZR.
  pose proof (base_Int_part (- x)) as [_ H]. lra.
Qed.

Lemma asin_nonneg (x : R) : 0 <= x <= 1 -> 0 <= asin x.
Proof.
  intros Hx. pose proof (asin_bound x) as [Hlo Hhi]. pose proof PI_RGT_0.
  destruct (Rle_dec 0 (asin x)) as [H0 | Hn]; [ exact H0 | exfalso ].
  assert (Hs : sin (asin x) < 0) by (apply sin_lt_0_var; lra).
  rewrite sin_asin in Hs by lra. lra.
Qed.

Lemma asin_le_PI4 (x : R) : 0 <= x <= / sqrt 2 -> asin x <= PI / 4.
Proof.
  intros Hx. pose proof (asin_bound x) as [Hlo Hhi]. pose proof PI_RGT_0.
  pose proof (sqrt_lt_R0 2 ltac:(lra)) as P2.
  pose proof sqrt2_sq as H2.
  assert (Hinv : / sqrt 2 <= 1).
  { rewrite <- Rinv_1. apply Rinv_le_contravar; [ lra | nra ]. }
  destruct (Rle_dec (asin x) (PI / 4)) as [H0 | Hn]; [ exact H0 | exfalso ].
  assert (Hs : sin (PI / 4) < sin (asin x)) by (apply sin_increasing_1; lra).
  rewrite sin_asin in Hs by lra. rewrite sin_PI4 in Hs.
  unfold Rdiv in Hs. lra.
Qed.

(** Four bins or more and a turning radius of one cell or more keep the
    turning angle within a half turn. *)
Lemma turning_angle_le_PI (n : Z) (r : R) :
  (4 <= n)%Z -> 1 <= r -> turning_angle n r <= PI.
Proof.
  intros Hn Hr.
  pose proof PI_RGT_0 as Hpi.
  pose proof (sqrt_lt_R0 2 ltac:(lra)) as P2.
  pose proof sqrt2_sq as H2.
  assert (Hbin : 0 < bin_size n <= PI / 2).
  { split; [ apply bin_size_pos; lia | ].
    unfold bin_size.
    assert (H4 : 4 <= IZR n) by (apply IZR_le in Hn; exact Hn).
    apply (Rmult_le_reg_r (IZR n)); [ lra | ].
    replace (2 * PI / IZR n * IZR n) with (2 * PI) by (field; lra). nra. }
  assert (Hx : 0 <= sqrt_2 / (2 * r) <= / sqrt 2).
  { unfold sqrt_2. split.
    - apply div_nonneg; lra.
    - apply (Rmult_le_reg_r (2 * r * sqrt 2)); [ nra | ].
      replace (sqrt 2 / (2 * r) * (2 * r * sqrt 2)) with (sqrt 2 * sqrt 2)
        by (field; lra).
      replace (/ sqrt 2 * (2 * r * sqrt 2)) with (2 * r) by (field; lra).
      lra. }
  pose proof (asin_le_PI4 _ Hx) as Hraw.
  unfold turning_angle. fold (bin_size n).
  set (angle := 2 * asin (sqrt_2 / (2 * r))) in *.
  assert (Hangle : angle <= PI / 2) by (unfold angle; lra).
  destruct (Rlt_dec angle (bin_size n)); [ lra | ].
  destruct (Rgt_dec angle (bin_size n)); [ | lra ].
  cbv zeta.
  pose proof (ceilR_lt (angle / bin_size n)) as Hc.
  apply (Rmult_lt_compat_l (bin_size n)) in Hc; [ | lra ].
  replace (bin_size n * (angle / bin_size n + 1)) with (angle + bin_size n) in Hc
    by (field; lra).
  lra.
Qed.

(** Between the minimal angle and a half turn the chord of the turn is
    at least [sqrt 2]. *)
Lemma chord_leaves_cell (r a : R) :
  sqrt 2 / 2 <= r ->
  2 * asin (sqrt_2 / (2 * r)) <= a <= PI ->
  sqrt 2 <= sqrt (delta_x r a * delta_x r a + delta_y r a * delta_y r a).
Proof.
  intros Hr [Hlo Hhi].
  pose proof PI_RGT_0 as Hpi.
  pose proof (sqrt_lt_R0 2 ltac:(lra)) as P2.
  pose proof sqrt2_sq as H2.
  assert (Hrpos : 0 < r) by lra.
  set (x := sqrt_2 / (2 * r)) in *.
  assert (Hx : 0 <= x <= 1).
  { unfold x, sqrt_2. split.
    - apply div_nonneg; lra.
    - apply (Rmult_le_reg_r (2 * r)); [ lra | ].
      replace (sqrt 2 / (2 * r) * (2 * r)) with (sqrt 2) by (field; lra). lra. }
  assert (Hxx : x * x * (r * r) = / 2).
  { unfold x, sqrt_2.
    replace (sqrt 2 / (2 * r) * (sqrt 2 / (2 * r)) * (r * r))
      with (sqrt 2 * sqrt 2 / 4) by (field; lra).
    rewrite H2. lra. }
  pose proof (asin_nonneg x Hx) as Hraw0.
  pose proof (asin_bound x) as [_ Hraw1].
  assert (Hcos : cos a <= cos (2 * asin x)) by (apply cos_decr_1; lra).
  rewrite cos_2a_sin, sin_asin in Hcos by lra.
  pose proof (sin2_cos2 a) as Hsc. unfold Rsqr in Hsc.
  apply sqrt_le_1_alt.
  unfold delta_x, delta_y.
  replace (r * sin a * (r * sin a) + (r * cos a - r) * (r * cos a - r))
    with (r * r * (sin a * sin a + cos a * cos a) + r * r * (1 - 2 * cos a))
    by ring.
  rewrite Hsc. nra.
Qed.

Lemma norm_forward : sqrt 2 <= sqrt (sqrt_2 * sqrt_2 + 0 * 0).
Proof.
  unfold sqrt_2. pose proof sqrt2_sq as H2.
  replace (sqrt 2 * sqrt 2 + 0 * 0) with 2 by lra. lra.
Qed.

Lemma norm_backward : sqrt 2 <= sqrt (- sqrt_2 * - sqrt_2 + 0 * 0).
Proof.
  unfold sqrt_2. pose proof sqrt2_sq as H2.
  replace (- sqrt 2 * - sqrt 2 + 0 * 0) with 2 by lra. lra.
Qed.

(** Both car-like tables leave the cell with every primitive once the
    turning angle stays within a half turn. *)
Lemma car_tables_leave_cell (size_x n : Z) (r : R) :
  (1 <= n)%Z ->
  sqrt 2 / 2 <= r ->
  turning_angle n r <= PI ->
  Forall leaves_cell (projections (initDubin size_x n r))
  /\ Forall leaves_cell (projections (initReedsShepp size_x n r)).
Proof.
  intros Hn Hr Hpi.
  destruct (turning_angle_bins n r Hn) as (k & _ & _ & Hraw).
  pose proof (chord_leaves_cell r (turning_angle n r) Hr (conj Hraw Hpi)) as Hc.
  pose proof norm_forward as Hf. pose proof norm_backward as Hb.
  set (a := turning_angle n r) in *.
  assert (Hright : sqrt 2 <= sqrt (delta_x r a * delta_x r a
                                   + - delta_y r a * - delta_y r a)).
  { replace (- delta_y r a * - delta_y r a) with (delta_y r a * delta_y r a) by ring.
    exact Hc. }
  assert (Hbl : sqrt 2 <= sqrt (- delta_x r a * - delta_x r a
                                + delta_y r a * delta_y r a)).
  { replace (- delta_x r a * - delta_x r a) with (delta_x r a * delta_x r a) by ring.
    exact Hc. }
  assert (Hbr : sqrt 2 <= sqrt (- delta_x r a * - delta_x r a
                                + - delta_y r a * - delta_y r a)).
  { replace (- delta_x r a * - delta_x r a) with (delta_x r a * delta_x r a) by ring.
    exact Hright. }
  unfold initDubin, initReedsShepp, leaves_cell, planar_norm. fold a. simpl.
  split; repeat (apply List.Forall_cons; [ simpl; assumption | ]);
    apply List.Forall_nil.
Qed.
End MotionExtras.



(** X2.  Whenever the turning angle stays within a half turn (and the turning
    radius is at least [sqrt 2 / 2], so that the minimal angle exists),
    every primitive of the Dubin and Reeds-Shepp tables has a planar length
    of at least [sqrt 2]. *)
Theorem car_primitives_leave_cell (size_x n : Z) (r : R) :
  (1 <= n)%Z ->
  (sqrt 2 / 2 <= r)%R ->
  (Motion.turning_angle n r <= PI)%R ->
  Forall Motion.leaves_cell (Motion.projections (Motion.initDubin size_x n r))
  /\ Forall Motion.leaves_cell (Motion.projections (Motion.initReedsShepp size_x n r)).
Proof. apply car_tables_leave_cell. Qed.

Lemma sqrt2_half_le_1 : (sqrt 2 / 2 <= 1)%R.
Proof.
  pose proof sqrt2_sq. pose proof (sqrt_lt_R0 2 ltac:(lra)). nra.
Qed.

Lemma car_primitives_leave_cell_witness :
  Forall Motion.leaves_cell (Motion.projections (Motion.initDubin 100 4 1))
  /\ Forall Motion.leaves_cell (Motion.projections (Motion.initReedsShepp 100 4 1)).
Proof.
  apply (car_primitives_leave_cell 100 4 1).
  - lia.
  - exact sqrt2_half_le_1.
  - apply turning_angle_le_PI; [ lia | lra ].
Defined.

(** X3.  With four angular bins or more and a minimum turning radius of one
    cell or more, every Dubin and Reeds-Shepp primitive leaves its cell. *)
Theorem car_primitives_leave_cell_four_bins (size_x n : Z) (r : R) :
  (4 <= n)%Z ->
  (1 <= r)%R ->
  Forall Motion.leaves_cell (Motion.projections (Motion.initDubin size_x n r))
  /\ Forall Motion.leaves_cell (Motion.projections (Motion.initReedsShepp size_x n r)).
Proof.
  intros Hn Hr. apply car_tables_leave_cell.
  - lia.
  - pose proof sqrt2_half_le_1. lra.
  - apply turning_angle_le_PI; assumption.
Qed.

Lemma car_primitives_leave_cell_four_bins_witness :
  Forall Motion.leaves_cell (Motion.projections (Motion.initDubin 100 72 5))
  /\ Forall Motion.leaves_cell (Motion.projections (Motion.initReedsShepp 100 72 5)).
Proof. apply (car_primitives_leave_cell_four_bins 100 72 5); [ lia | lra ]. Defined.

(** X4.  The Reeds-Shepp table is the Dubin table followed by the same three
    primitives driven in reverse. *)
Theorem initReedsShepp_dubin_and_reversed (size_x n : Z) (r : R) :
  Motion.projections (Motion.initReedsShepp size_x n r)
  = Motion.projections (Motion.initDubin size_x n r)
    ++ map Motion.reversed (Motion.projections (Motion.initDubin size_x n r)).
Proof.
  unfold Motion.initReedsShepp, Motion.initDubin, Motion.reversed. simpl.
  repeat f_equal.
Qed.

Section HeuristicFacts.
Import Motion.
Local Open Scope R_scope.

Lemma norm_triangle (u1 u2 v1 v2 : R) :
  sqrt ((u1 + v1) * (u1 + v1) + (u2 + v2) * (u2 + v2))
  <= sqrt (u1 * u1 + u2 * u2) + sqrt (v1 * v1 + v2 * v2).
Proof.
  set (U := u1 * u1 + u2 * u2). set (V := v1 * v1 + v2 * v2).
  assert (HU : 0 <= U) by (unfold U; nra).
  assert (HV : 0 <= V) by (unfold V; nra).
  pose proof (sqrt_pos U) as PA. pose proof (sqrt_pos V) as PB.
  pose proof (sqrt_sqrt U HU) as HA. pose proof (sqrt_sqrt V HV) as HB.
  set (A := sqrt U) in *. set (B := sqrt V) in *.
  assert (Hdot : u1 * v1 + u2 * v2 <= A * B).
  { destruct (Rle_dec (u1 * v1 + u2 * v2) (A * B)) as [H | H]; [ exact H | exfalso ].
    assert (Hgt : A * B < u1 * v1 + u2 * v2) by lra.
    assert (Hsq : (A * B) * (A * B) < (u1 * v1 + u2 * v2) * (u1 * v1 + u2 * v2))
      by (apply Rmult_le_0_lt_compat; nra).
    replace (A * B * (A * B)) with (U * V) in Hsq by (rewrite <- HA, <- HB; ring).
    unfold U, V in Hsq.
    pose proof (Rle_0_sqr (u1 * v2 - u2 * v1)) as Hcs. unfold Rsqr in Hcs. nra. }
  rewrite <- (sqrt_square (A + B)) by lra.
  apply sqrt_le_1_alt.
  replace ((A + B) * (A + B)) with (U + V + 2 * (A * B)) by (rewrite <- HA, <- HB; ring).
  unfold U, V. nra.
Qed.
End HeuristicFacts.

(** X6.  The heuristic is a metric on grid coordinates: it vanishes exactly at
    the goal, does not depend on the direction, and obeys the triangle
    inequality, so one step changes it by no more than the planar length
    of the step. *)
Theorem getHeuristicCost_metric (a b c : Motion.Coordinates) :
  (0 <= Motion.getHeuristicCost a b)%R
  /\ (Motion.getHeuristicCost a b = 0%R <->
      Motion.cx a = Motion.cx b /\ Motion.cy a = Motion.cy b)
  /\ Motion.getHeuristicCost a b = Motion.getHeuristicCost b a
  /\ (Motion.getHeuristicCost a c
      <= Motion.getHeuristicCost a b + Motion.getHeuristicCost b c)%R.
Proof.
  unfold Motion.getHeuristicCost.
  destruct a as [ax ay], b as [bx by_], c as [cx cy]. simpl.
  split; [ apply sqrt_pos | ]. split; [ | split ].
  - split.
    + intros H.
      pose proof (Rle_0_sqr (bx - ax)) as Sx. pose proof (Rle_0_sqr (by_ - ay)) as Sy.
      unfold Rsqr in Sx, Sy.
      assert (Hnn : (0 <= (bx - ax) * (bx - ax) + (by_ - ay) * (by_ - ay))%R) by lra.
      apply (sqrt_eq_0 _ Hnn) in H.
      assert (Hx : ((bx - ax) * (bx - ax) = 0)%R) by lra.
      assert (Hy : ((by_ - ay) * (by_ - ay) = 0)%R) by lra.
      apply Rmult_integral in Hx. apply Rmult_integral in Hy.
      split; [ destruct Hx; lra | destruct Hy; lra ].
    + intros [-> ->].
      replace ((bx - bx) * (bx - bx) + (by_ - by_) * (by_ - by_))%R with 0%R by ring.
      apply sqrt_0.
  - f_equal. ring.
  - replace (cx - ax)%R with ((bx - ax) + (cx - bx))%R by ring.
    replace (cy - ay)%R with ((by_ - ay) + (cy - by_))%R by ring.
    apply norm_triangle.
Qed.

(** X7.  [initMotionModel] builds a table for exactly the three SE2 models; for
    the two grid models and for the unknown model it throws.  A table
    that is built stores the grid width and the number of bins it was
    given. *)
Theorem initMotionModel_accepts (m : MotionModel.t) (size_x n : Z) (r : R) :
  match Motion.initMotionModel m size_x n r with
  | inr t =>
      (m = MotionModel.DUBIN \/ m = MotionModel.REEDS_SHEPP
       \/ m = MotionModel.BALKCOM_MASON)
      /\ Motion.size_x t = size_x
      /\ Motion.num_angle_quantization t = n
      /\ length (Motion.projections t) =
           match m with
           | MotionModel.DUBIN => 3%nat
           | MotionModel.REEDS_SHEPP => 6%nat
           | _ => 8%nat
           end
  | inl _ =>
      m = MotionModel.UNKNOWN \/ m = MotionModel.VON_NEUMANN
      \/ m = MotionModel.MOORE
  end.
Proof.
  destruct m; simpl; auto 10.
Qed.

(** X5.  The Balkcom-Mason table never moves sideways.  Each of its
    primitives is a straight move of planar length [sqrt 2], alone or
    together with a turn, or a spin in place; a spin has no displacement
    and turns by exactly one bin, which is not zero. *)
Theorem initBalkcomMason_moves_or_spins (size_x n : Z) :
  n <> 0%Z ->
  Forall (fun p =>
            Motion._y p = 0%R
            /\ (Motion.planar_norm p = sqrt 2
                \/ (Motion._x p = 0%R
                    /\ Motion._theta p <> 0%R
                    /\ (Motion._theta p = Motion.bin_size n
                        \/ Motion._theta p = (- Motion.bin_size n)%R))))
         (Motion.projections (Motion.initBalkcomMason size_x n)).
Proof.
  intros Hn.
  pose proof sqrt2_sq as H2. pose proof PI_RGT_0 as Hpi.
  assert (Hbin : (2 * PI / IZR n <> 0)%R).
  { apply Rmult_integral_contrapositive_currified; [ lra | ].
    apply Rinv_neq_0_compat. apply not_0_IZR. exact Hn. }
  assert (Hf : sqrt (Motion.sqrt_2 * Motion.sqrt_2 + 0 * 0) = sqrt 2).
  { unfold Motion.sqrt_2. f_equal. lra. }
  assert (Hb : sqrt (- Motion.sqrt_2 * - Motion.sqrt_2 + 0 * 0) = sqrt 2).
  { unfold Motion.sqrt_2. f_equal. lra. }
  unfold Motion.initBalkcomMason, Motion.planar_norm, Motion.bin_size. simpl.
  repeat (apply List.Forall_cons;
          [ simpl; split; [ reflexivity | ];
            first [ left; assumption
                  | right; split; [ reflexivity | ]; split; [ lra | ];
                    first [ left; reflexivity | right; reflexivity ] ]
          | ]).
  apply List.Forall_nil.
Qed.

Lemma initBalkcomMason_moves_or_spins_witness :
  Forall (fun p =>
            Motion._y p = 0%R
            /\ (Motion.planar_norm p = sqrt 2
                \/ (Motion._x p = 0%R
                    /\ Motion._theta p <> 0%R
                    /\ (Motion._theta p = Motion.bin_size 16
                        \/ Motion._theta p = (- Motion.bin_size 16)%R))))
         (Motion.projections (Motion.initBalkcomMason 100 16)).
Proof. apply (initBalkcomMason_moves_or_spins 100 16). lia. Defined.

Lemma omap_length_le {A B} (f : A -> option B) (l : list A) :
  (length (omap f l) <= length l)%nat.
Proof.
  induction l as [ | a l IH]; [ reflexivity | ].
  cbn. destruct (f a); cbn in *; lia.
Qed.

Section NeighborFacts.
Import Motion.
Variable getIndex : Z -> Z -> Z -> Z -> Z -> Z.
Variable check : Z -> option Z.
Variable t : MotionTable.

Lemma visit_all (projs : list Pose) (poses : gmap Z Pose) (neighbors : list Z) :
  (foldl (visit_projection getIndex check t) (poses, neighbors) projs).2
    = neighbors ++ omap (fun proj => check (projection_index getIndex t proj)) projs
  /\ forall q,
       (foldl (visit_projection getIndex check t) (poses, neighbors) projs).1 !! q
       = match last (accepted_as getIndex check t q projs) with
         | Some proj => Some proj
         | None => poses !! q
         end.
Proof.
  induction projs as [ | proj projs IH] using rev_ind.
  - simpl. split; [ rewrite app_nil_r; reflexivity | reflexivity ].
  - rewrite foldl_app. simpl.
    destruct IH as [IHn IHp].
    destruct (foldl (visit_projection getIndex check t) (poses, neighbors) projs)
      as [poses' neighbors'] eqn:E.
    simpl in IHn, IHp. subst neighbors'.
    unfold accepted_as in *. unfold visit_projection. simpl.
    rewrite omap_app. simpl.
    destruct (check (projection_index getIndex t proj)) as [nb | ] eqn:Hc; simpl.
    + split; [ rewrite app_assoc; reflexivity | ].
      intros q. rewrite filter_app.
      destruct (decide (nb = q)) as [-> | Hne].
      * rewrite lookup_insert_eq.
        rewrite (filter_cons_True _ proj []) by exact Hc.
        rewrite filter_nil, last_snoc. reflexivity.
      * rewrite lookup_insert_ne by exact Hne.
        rewrite (filter_cons_False _ proj []) by congruence.
        rewrite filter_nil, app_nil_r. apply IHp.
    + split; [ rewrite app_nil_r; reflexivity | ].
      intros q. rewrite filter_app.
      rewrite (filter_cons_False _ proj []) by congruence.
      rewrite filter_nil, app_nil_r. apply IHp.
Qed.
End NeighborFacts.

(** X8.  [getNeighbors] only appends to the vector it is given: it adds the
    nodes of the accepted projections in table order, one entry per
    accepted primitive, so at most as many as the table has primitives. *)
Theorem getNeighbors_appends_accepted
    (getIndex : Z -> Z -> Z -> Z -> Z -> Z) (check : Z -> option Z)
    (t : Motion.MotionTable) (node_pose : Motion.Pose)
    (poses : gmap Z Motion.Pose) (neighbors : list Z) :
  (Motion.getNeighbors getIndex check t node_pose poses neighbors).2
    = neighbors
      ++ omap (fun proj => check (Motion.projection_index getIndex t proj))
              (Motion.getProjections t node_pose)
  /\ (length (Motion.getNeighbors getIndex check t node_pose poses neighbors).2
      <= length neighbors + length (Motion.projections t))%nat.
Proof.
  unfold Motion.getNeighbors.
  destruct (visit_all getIndex check t (Motion.getProjections t node_pose)
              poses neighbors) as [Hn _].
  rewrite Hn. split; [ reflexivity | ].
  rewrite length_app.
  pose proof (omap_length_le
                (fun proj => check (Motion.projection_index getIndex t proj))
                (Motion.getProjections t node_pose)) as Hl.
  unfold Motion.getProjections in *. rewrite length_map in Hl. lia.
Qed.

(** X9.  After [getNeighbors] a node that several primitives reach holds the
    pose of the last of them, although it has been pushed once for each;
    a node that no primitive reaches keeps the pose it had. *)
Theorem getNeighbors_last_pose_wins
    (getIndex : Z -> Z -> Z -> Z -> Z -> Z) (check : Z -> option Z)
    (t : Motion.MotionTable) (node_pose : Motion.Pose)
    (poses : gmap Z Motion.Pose) (neighbors : list Z) (q : Z) :
  (Motion.getNeighbors getIndex check t node_pose poses neighbors).1 !! q
  = match last (Motion.accepted_as getIndex check t q
                  (Motion.getProjections t node_pose)) with
    | Some proj => Some proj
    | None => poses !! q
    end.
Proof.
  unfold Motion.getNeighbors.
  destruct (visit_all getIndex check t (Motion.getProjections t node_pose)
              poses neighbors) as [_ Hp].
  apply Hp.
Qed.

Section ConfigureReadRules.
Import Facade.
Variable E : Z -> NodeState -> Prop.

(** After a declaration the parameter holds its effective value and no
    other parameter has changed. *)
Lemma returns_declare_effective (name : string) (default : ParameterValue)
      (s : NodeState) (Q : unit -> NodeState -> Prop) :
  (forall s',
      logged s' = logged s ->
      parameters s' !! name = Some (effective s name default) ->
      (forall k, k <> name -> parameters s' !! k = parameters s !! k) ->
      Q tt s') ->
  returns (declare_parameter_if_not_declared name default) s Q E.
Proof.
  intros H. unfold returns, declare_parameter_if_not_declared, effective in *.
  destruct (parameters s !! name) eqn:Hn; apply H; simpl; auto.
  - apply lookup_insert_eq.
  - intros k Hk. apply lookup_insert_ne. congruence.
Qed.

Lemma returns_get_double_at (name : string) (s : NodeState) (v : ParameterValue)
      (Q : Q -> NodeState -> Prop) :
  parameters s !! name = Some v ->
  (forall d, v = PDouble d -> Q d s) ->
  returns (get_parameter_double name) s Q E.
Proof.
  intros Hv H. unfold returns, get_parameter_double, get_parameter, mbind, Prog_bind.
  rewrite Hv. destruct v; simpl; auto.
Qed.

Lemma returns_get_bool_at (name : string) (s : NodeState) (v : ParameterValue)
      (Q : bool -> NodeState -> Prop) :
  parameters s !! name = Some v ->
  (forall b, v = PBool b -> Q b s) ->
  returns (get_parameter_bool name) s Q E.
Proof.
  intros Hv H. unfold returns, get_parameter_bool, get_parameter, mbind, Prog_bind.
  rewrite Hv. destruct v; simpl; auto.
Qed.

Lemma returns_get_int_at (name : string) (s : NodeState) (v : ParameterValue)
      (Q : Z -> NodeState -> Prop) :
  parameters s !! name = Some v ->
  (forall i, v = PInt i -> Q (to_int i) s) ->
  returns (get_parameter_int name) s Q E.
Proof.
  intros Hv H. unfold returns, get_parameter_int, get_parameter, mbind, Prog_bind.
  rewrite Hv. destruct v; simpl; auto.
Qed.

Lemma returns_get_string_at (name : string) (s : NodeState) (v : ParameterValue)
      (Q : string -> NodeState -> Prop) :
  parameters s !! name = Some v ->
  (forall str, v = PString str -> Q str s) ->
  returns (get_parameter_string name) s Q E.
Proof.
  intros Hv H. unfold returns, get_parameter_string, get_parameter, mbind, Prog_bind.
  rewrite Hv. destruct v; simpl; auto.
Qed.
End ConfigureReadRules.

Lemma ratio_positive (r : Z) :
  negb (r =? 2)%Z && negb (r =? 4)%Z = false -> (0 <? r)%Z = true.
Proof.
  destruct (Z.eqb_spec r 2) as [-> | ]; [ reflexivity | ].
  destruct (Z.eqb_spec r 4) as [-> | ]; [ reflexivity | discriminate ].
Qed.

Section ConfigureResult.
Import Facade.
Variables (X : Externals) (name : string) (costmap_ros : Costmap2DROS).
Variable node : NodeState.

Ltac fresh_key :=
  rewrite ?not_elem_of_cons; repeat split;
  try (let H := fresh in
       intros H; apply (inj (String.append name)) in H; discriminate H);
  try apply not_elem_of_nil.

(** Declare the next key and learn the value its read will see. *)
Ltac declare_next :=
  apply returns_bind, returns_declare_effective;
  let s' := fresh "s" in
  let Hval := fresh "Hval" in
  let Hs := fresh "Hs" in
  intros s' _ Hval Hs; cbv beta;
  match goal with
  | Hinv : forall k, k ∉ ?done -> parameters ?s !! k = parameters node !! k |- _ =>
      match type of Hval with
      | _ !! ?key = Some (effective _ _ ?D) =>
          let Heq := fresh "Heq" in
          assert (Heq : parameters s !! key = parameters node !! key)
            by (apply Hinv; fresh_key);
          unfold effective in Hval; rewrite ?Heq in Hval;
          fold (effective node key D) in Hval; clear Heq;
          let Hnew := fresh "Hinv" in
          assert (Hnew : forall k, k ∉ key :: done ->
                                   parameters s' !! k = parameters node !! k);
          [ let k := fresh "k" in
            let Hk := fresh "Hk" in
            intros k Hk; apply not_elem_of_cons in Hk as [? ?];
            rewrite Hs by assumption; apply Hinv; assumption
          | clear Hinv Hs ]
      end
  end.

Ltac run :=
  repeat match goal with
    | |- returns (mret _) _ _ _ => apply returns_mret
    | |- returns (leave (Exit _)) _ _ _ => apply returns_exit
    | |- returns (log_to_node _ _ _) _ _ _ => apply returns_log
    | |- returns (run_get _) _ _ _ => apply returns_run_get; intros ? ?
    | |- returns (mbind _ _) _ _ _ => apply returns_bind
    | |- returns (if ?b then _ else _) _ _ _ => destruct b eqn:?
    | |- returns (match ?m with MotionModel.UNKNOWN => _ | _ => _ end) _ _ _ =>
        destruct m
    | |- _ => progress cbn beta iota zeta
    end.

Lemma configure_result :
  returns (configure X name costmap_ros) node
    (fun p _ =>
       exists c, settings_read name node c /\ configured_with X name costmap_ros c p)
    (fun code node' =>
       code = (-1)%Z
       /\ exists c, settings_read name node c
                    /\ Qlt_bool 1 (s_travel_cost_scale c)
                       || Qlt_bool (s_travel_cost_scale c) 0 = true).
Proof.
  unfold configure.
  assert (Hinv : forall k, k ∉ @nil string ->
                           parameters node !! k = parameters node !! k) by auto.
  declare_next. apply returns_bind, (returns_get_double_at _ _ _ _ _ Hval);
    intros tolerance Htol; clear Hval.
  declare_next. apply returns_bind, (returns_get_bool_at _ _ _ _ _ Hval);
    intros downsample_costmap Hdc; clear Hval.
  declare_next. apply returns_bind, (returns_get_int_at _ _ _ _ _ Hval);
    intros df Hdf; clear Hval.
  declare_next. apply returns_bind, (returns_get_int_at _ _ _ _ _ Hval);
    intros aq Haq; clear Hval.
  declare_next. apply returns_bind, (returns_get_bool_at _ _ _ _ _ Hval);
    intros allow_unknown Hau; clear Hval.
  declare_next. apply returns_bind, (returns_get_int_at _ _ _ _ _ Hval);
    intros mi Hmi; clear Hval.
  declare_next. apply returns_bind, (returns_get_double_at _ _ _ _ _ Hval);
    intros tcs Htcs; clear Hval.
  declare_next. apply returns_bind, (returns_get_bool_at _ _ _ _ _ Hval);
    intros smooth_path Hsp; clear Hval.
  declare_next. apply returns_bind, (returns_get_bool_at _ _ _ _ _ Hval);
    intros upsample_path Hup; clear Hval.
  declare_next. apply returns_bind, (returns_get_int_at _ _ _ _ _ Hval);
    intros ur Hur; clear Hval.
  declare_next. apply returns_bind, (returns_get_double_at _ _ _ _ _ Hval);
    intros mtr Hmtr; clear Hval.
  declare_next. apply returns_bind, (returns_get_string_at _ _ _ _ _ Hval);
    intros mm Hmm; clear Hval.
  pose (c := {| s_tolerance := tolerance;
                s_downsample_costmap := downsample_costmap;
                s_downsampling_factor := to_int df;
                s_angle_quantizations := to_int aq;
                s_allow_unknown := allow_unknown;
                s_max_iterations := to_int mi;
                s_travel_cost_scale := tcs;
                s_smooth_path := smooth_path;
                s_upsample_path := upsample_path;
                s_upsampling_ratio := to_int ur;
                s_minimum_turning_radius := mtr;
                s_motion_model_for_search := mm |}).
  assert (Hc : settings_read name node c).
  { unfold settings_read, c; simpl. repeat split; eauto. }
  clear Htol Hdc Hdf Haq Hau Hmi Htcs Hsp Hup Hur Hmtr Hmm.
  change (INT_MAX <=? 0)%Z with false.
  apply returns_bind.
  destruct (fromString X mm) eqn:Hmodel;
    (destruct smooth_path, upsample_path; run;
     [ try (split; [ reflexivity | ]); exists c; split; [ exact Hc | ];
       unfold configured_with, engine_of, c; simpl;
       repeat match goal with
         | H : negb _ && negb _ = false |- _ =>
             rewrite ?(ratio_positive _ H); rewrite ?H; clear H
         | H : ?b = true |- _ => rewrite ?H; clear H
         | H : ?b = false |- _ => rewrite ?H; clear H
         end;
       rewrite ?Hmodel; simpl;
       repeat split; try reflexivity; try discriminate .. ]).
Qed.

Lemma configure_returned (node' : NodeState) (p : SmacPlanner) :
  configure X name costmap_ros node = (inr p, node') ->
  exists c, settings_read name node c /\ configured_with X name costmap_ros c p.
Proof.
  intros Hrun. pose proof configure_result as H.
  unfold returns in H. rewrite Hrun in H. exact H.
Qed.
End ConfigureResult.

(** X10.  A positive [max_iterations] is handed to the engine as it is; zero, a
    negative value or no value at all (the default is -1) stand for the
    largest [int].  The limit of a configured engine is never below 1. *)
Theorem configure_max_iterations
    (X : Facade.Externals) (name : string) (costmap_ros : Facade.Costmap2DROS)
    (node node' : Facade.NodeState) (p : Facade.SmacPlanner) :
  Facade.configure X name costmap_ros node = (inr p, node') ->
  exists a i,
    Facade._a_star p = Some a
    /\ Facade.effective node (name +:+ ".max_iterations") (Facade.PInt (-1))
       = Facade.PInt i
    /\ Facade.getMaxIterations a =
         (if (Facade.to_int i <=? 0)%Z then Facade.INT_MAX else Facade.to_int i)
    /\ (1 <= Facade.getMaxIterations a <= Facade.INT_MAX)%Z.
Proof.
  intros Hrun.
  destruct (configure_returned X name costmap_ros node node' p Hrun)
    as (c & Hread & Ha & _).
  destruct Hread as (_ & _ & _ & _ & _ & (i & Hi & Hmi) & _).
  exists (Facade.engine_of X costmap_ros c), i.
  split; [ exact Ha | ]. split; [ exact Hi | ].
  unfold Facade.engine_of; simpl. rewrite Hmi.
  split; [ reflexivity | ].
  assert (Hrange : (- 2 ^ 31 <= Facade.to_int i < 2 ^ 31)%Z).
  { unfold Facade.to_int.
    pose proof (Z.mod_pos_bound (i + 2 ^ 31) (2 ^ 32) ltac:(lia)). lia. }
  unfold Facade.INT_MAX.
  destruct (Z.leb_spec (Facade.to_int i) 0); lia.
Qed.

Lemma configure_max_iterations_witness :
  let X := Demo.externals (Facade.PathThrew "") in
  let node := Demo.node [("GridBased.max_iterations"%string, Facade.PInt 500)] in
  exists a i,
    Facade._a_star (Demo.planner (Facade.PathThrew "")
                      [("GridBased.max_iterations"%string, Facade.PInt 500)]) = Some a
    /\ Facade.effective node ("GridBased" +:+ ".max_iterations") (Facade.PInt (-1))
       = Facade.PInt i
    /\ Facade.getMaxIterations a =
         (if (Facade.to_int i <=? 0)%Z then Facade.INT_MAX else Facade.to_int i)
    /\ (1 <= Facade.getMaxIterations a <= Facade.INT_MAX)%Z.
Proof.
  cbv zeta.
  apply (configure_max_iterations
           (Demo.externals (Facade.PathThrew "")) "GridBased" Demo.costmap_ros
           (Demo.node [("GridBased.max_iterations"%string, Facade.PInt 500)])
           (Facade.configure (Demo.externals (Facade.PathThrew "")) "GridBased"
              Demo.costmap_ros
              (Demo.node [("GridBased.max_iterations"%string, Facade.PInt 500)])).2).
  vm_compute. reflexivity.
Defined.


Lemma Qlt_bool_true (a b : Q) : Facade.Qlt_bool a b = true <-> (a < b)%Q.
Proof.
  unfold Facade.Qlt_bool. rewrite negb_true_iff.
  split.
  - intros H. apply Qnot_le_lt. intros Hle.
    apply Qle_bool_iff in Hle. congruence.
  - intros H. destruct (Qle_bool b a) eqn:E; [ | reflexivity ].
    apply Qle_bool_iff in E. exfalso. exact (Qlt_not_le _ _ H E).
Qed.






(** X13.  The upsampling ratio of a configured planner is 2 or 4: the
    parameter when it is one of the two, and 2 otherwise. *)
Theorem configure_upsampling_ratio
    (X : Facade.Externals) (name : string) (costmap_ros : Facade.Costmap2DROS)
    (node node' : Facade.NodeState) (p : Facade.SmacPlanner) :
  Facade.configure X name costmap_ros node = (inr p, node') ->
  exists i,
    Facade.effective node (name +:+ ".smoother.upsampling_ratio") (Facade.PInt 2)
      = Facade.PInt i
    /\ (Facade._upsampling_ratio p = 2 \/ Facade._upsampling_ratio p = 4)%Z
    /\ (Facade._upsampling_ratio p = 4%Z <-> Facade.to_int i = 4%Z).
Proof.
  intros Hrun.
  destruct (configure_returned X name costmap_ros node node' p Hrun)
    as (c & Hread & Hconf).
  destruct Hread as (_ & _ & _ & _ & _ & _ & _ & _ & _ & (i & Hi & Hur) & _).
  destruct Hconf as (_ & _ & _ & _ & _ & _ & _ & _ & _ & _ & _ & _ & Hratio & _).
  exists i. split; [ exact Hi | ]. rewrite Hratio, Hur.
  destruct (Z.eqb_spec (Facade.to_int i) 2) as [E2 | N2];
    destruct (Z.eqb_spec (Facade.to_int i) 4) as [E4 | N4]; simpl; lia.
Qed.

Lemma configure_upsampling_ratio_witness :
  let r := Facade.PathThrew "" in
  let params := [("GridBased.smoother.upsampling_ratio"%string, Facade.PInt 3)] in
  exists i,
    Facade.effective (Demo.node params) ("GridBased" +:+ ".smoother.upsampling_ratio")
      (Facade.PInt 2) = Facade.PInt i
    /\ (Facade._upsampling_ratio (Demo.planner r params) = 2
        \/ Facade._upsampling_ratio (Demo.planner r params) = 4)%Z
    /\ (Facade._upsampling_ratio (Demo.planner r params) = 4%Z
        <-> Facade.to_int i = 4%Z).
Proof.
  cbv zeta.
  apply (configure_upsampling_ratio
           (Demo.externals (Facade.PathThrew "")) "GridBased" Demo.costmap_ros
           (Demo.node [("GridBased.smoother.upsampling_ratio"%string, Facade.PInt 3)])
           (Demo.configured_node (Facade.PathThrew "")
              [("GridBased.smoother.upsampling_ratio"%string, Facade.PInt 3)])).
  vm_compute. reflexivity.
Defined.

(** X14.  A configured planner has a smoother exactly when [smooth_path] is
    set, and an upsampler exactly when both [smooth_path] and
    [upsample_path] are set: an upsampler never comes without a smoother,
    and the test on the upsampling ratio never withholds it. *)
Theorem configure_smoother_upsampler
    (X : Facade.Externals) (name : string) (costmap_ros : Facade.Costmap2DROS)
    (node node' : Facade.NodeState) (p : Facade.SmacPlanner) :
  Facade.configure X name costmap_ros node = (inr p, node') ->
  exists smooth_path upsample_path,
    Facade.effective node (name +:+ ".smooth_path") (Facade.PBool true)
      = Facade.PBool smooth_path
    /\ Facade.effective node (name +:+ ".upsample_path") (Facade.PBool false)
       = Facade.PBool upsample_path
    /\ (Facade._smoother p = None <-> smooth_path = false)
    /\ (Facade._upsampler p = None <-> smooth_path && upsample_path = false)
    /\ (Facade._smoother p = None -> Facade._upsampler p = None).
Proof.
  intros Hrun.
  destruct (configure_returned X name costmap_ros node node' p Hrun)
    as (c & Hread & Hconf).
  destruct Hread as (_ & _ & _ & _ & _ & _ & _ & Hsp & Hup & _).
  destruct Hconf as (_ & Hs & Hu & _).
  exists (Facade.s_smooth_path c), (Facade.s_upsample_path c).
  repeat split; try assumption; try apply Hs; try apply Hu.
  intros Hnone. apply Hu. apply Hs in Hnone. rewrite Hnone. reflexivity.
Qed.

Lemma configure_smoother_upsampler_witness :
  let r := Facade.PathThrew "" in
  let params := [("GridBased.upsample_path"%string, Facade.PBool true)] in
  exists smooth_path upsample_path,
    Facade.effective (Demo.node params) ("GridBased" +:+ ".smooth_path")
      (Facade.PBool true) = Facade.PBool smooth_path
    /\ Facade.effective (Demo.node params) ("GridBased" +:+ ".upsample_path")
         (Facade.PBool false) = Facade.PBool upsample_path
    /\ (Facade._smoother (Demo.planner r params) = None <-> smooth_path = false)
    /\ (Facade._upsampler (Demo.planner r params) = None
        <-> smooth_path && upsample_path = false)
    /\ (Facade._smoother (Demo.planner r params) = None
        -> Facade._upsampler (Demo.planner r params) = None).
Proof.
  cbv zeta.
  apply (configure_smoother_upsampler
           (Demo.externals (Facade.PathThrew "")) "GridBased" Demo.costmap_ros
           (Demo.node [("GridBased.upsample_path"%string, Facade.PBool true)])
           (Demo.configured_node (Facade.PathThrew "")
              [("GridBased.upsample_path"%string, Facade.PBool true)])).
  vm_compute. reflexivity.
Defined.

(** X15.  A configured planner has a costmap downsampler exactly when
    [downsample_costmap] is set and the factor exceeds 1; the downsampler
    then works on the planner's own costmap with the planner's factor.
    With the defaults (factor 1) there is none. *)
Theorem configure_downsampler
    (X : Facade.Externals) (name : string) (costmap_ros : Facade.Costmap2DROS)
    (node node' : Facade.NodeState) (p : Facade.SmacPlanner) :
  Facade.configure X name costmap_ros node = (inr p, node') ->
  exists downsample_costmap i,
    Facade.effective node (name +:+ ".downsample_costmap") (Facade.PBool true)
      = Facade.PBool downsample_costmap
    /\ Facade.effective node (name +:+ ".downsampling_factor") (Facade.PInt 1)
       = Facade.PInt i
    /\ Facade._downsampling_factor p = Facade.to_int i
    /\ (Facade._costmap_downsampler p = None
        <-> downsample_costmap && (1 <? Facade.to_int i)%Z = false)
    /\ forall d, Facade._costmap_downsampler p = Some d ->
                 Facade.ds_costmap d = Facade._costmap p
                 /\ Facade.ds_factor d = Facade._downsampling_factor p
                 /\ (1 < Facade.ds_factor d)%Z.
Proof.
  intros Hrun.
  destruct (configure_returned X name costmap_ros node node' p Hrun)
    as (c & Hread & Hconf).
  destruct Hread as (_ & Hdc & (i & Hi & Hdf) & _).
  destruct Hconf as (_ & _ & _ & Hcm & Hds & _ & _ & _ & Hf & _).
  exists (Facade.s_downsample_costmap c), i.
  split; [ exact Hdc | ]. split; [ exact Hi | ].
  split; [ congruence | ]. rewrite Hds, Hcm, Hf, <- Hdf.
  destruct (Facade.s_downsample_costmap c); simpl.
  - destruct (Z.ltb_spec 1 (Facade.s_downsampling_factor c)); split.
    + split; discriminate.
    + intros d [= <-]. simpl. auto.
    + split; reflexivity.
    + discriminate.
  - split; [ split; reflexivity | discriminate ].
Qed.

Lemma configure_downsampler_witness :
  let r := Facade.PathThrew "" in
  let params := [("GridBased.downsampling_factor"%string, Facade.PInt 2)] in
  exists downsample_costmap i,
    Facade.effective (Demo.node params) ("GridBased" +:+ ".downsample_costmap")
      (Facade.PBool true) = Facade.PBool downsample_costmap
    /\ Facade.effective (Demo.node params) ("GridBased" +:+ ".downsampling_factor")
         (Facade.PInt 1) = Facade.PInt i
    /\ Facade._downsampling_factor (Demo.planner r params) = Facade.to_int i
    /\ (Facade._costmap_downsampler (Demo.planner r params) = None
        <-> downsample_costmap && (1 <? Facade.to_int i)%Z = false)
    /\ forall d, Facade._costmap_downsampler (Demo.planner r params) = Some d ->
                 Facade.ds_costmap d = Facade._costmap (Demo.planner r params)
                 /\ Facade.ds_factor d = Facade._downsampling_factor (Demo.planner r params)
                 /\ (1 < Facade.ds_factor d)%Z.
Proof.
  cbv zeta.
  apply (configure_downsampler
           (Demo.externals (Facade.PathThrew "")) "GridBased" Demo.costmap_ros
           (Demo.node [("GridBased.downsampling_factor"%string, Facade.PInt 2)])
           (Demo.configured_node (Facade.PathThrew "")
              [("GridBased.downsampling_factor"%string, Facade.PInt 2)])).
  vm_compute. reflexivity.
Defined.



Section PoseLoops.
Import Facade.
Variable mk : Vector2d -> PoseStamped.

Lemma write_poses_all (poses : list PoseStamped) (path_world : list Vector2d) :
  (length path_world <= length poses)%nat ->
  write_poses mk poses path_world
    = Some (map mk path_world ++ drop (length path_world) poses).
Proof.
  revert poses. induction path_world as [ | v pw IH]; intros poses Hlen.
  - destruct poses; reflexivity.
  - destruct poses as [ | ps poses]; simpl in Hlen; [ lia | ].
    simpl. rewrite IH by lia. reflexivity.
Qed.

Lemma write_poses_overflow (poses : list PoseStamped) (path_world : list Vector2d) :
  (length poses < length path_world)%nat -> write_poses mk poses path_world = None.
Proof.
  revert poses. induction path_world as [ | v pw IH]; intros poses Hlen.
  - simpl in Hlen. lia.
  - destruct poses as [ | ps poses]; [ reflexivity | ].
    simpl in *. rewrite IH by lia. reflexivity.
Qed.

Lemma fill_poses_all (poses : list PoseStamped) (path_world : list Vector2d) :
  (length poses <= length path_world)%nat ->
  fill_poses mk poses path_world = Some (map mk (take (length poses) path_world)).
Proof.
  revert path_world. induction poses as [ | ps poses IH]; intros pw Hlen.
  - reflexivity.
  - destruct pw as [ | v pw]; simpl in Hlen; [ lia | ].
    simpl. rewrite IH by lia. reflexivity.
Qed.

Lemma fill_poses_short (poses : list PoseStamped) (path_world : list Vector2d) :
  (length path_world < length poses)%nat -> fill_poses mk poses path_world = None.
Proof.
  revert path_world. induction poses as [ | ps poses IH]; intros pw Hlen.
  - simpl in Hlen. lia.
  - destruct pw as [ | v pw]; [ reflexivity | ].
    simpl in *. rewrite IH by lia. reflexivity.
Qed.

Lemma fill_poses_same (poses : list PoseStamped) (path_world : list Vector2d) :
  length poses = length path_world ->
  fill_poses mk poses path_world = Some (map mk path_world).
Proof.
  intros Hlen. rewrite fill_poses_all by lia.
  rewrite Hlen, firstn_all. reflexivity.
Qed.

Lemma write_poses_same (poses : list PoseStamped) (path_world : list Vector2d) :
  length poses = length path_world ->
  write_poses mk poses path_world = Some (map mk path_world).
Proof.
  intros Hlen. rewrite write_poses_all by lia.
  rewrite <- Hlen, drop_all, app_nil_r. reflexivity.
Qed.

Lemma resize_poses_length (n : nat) (poses : list PoseStamped) :
  length (resize_poses n poses) = n.
Proof.
  unfold resize_poses. rewrite length_app, length_take, repeat_length. lia.
Qed.
End PoseLoops.

Section RemoveHookShape.
Import Facade.

Lemma removeHook_short (path : list Vector2d) :
  (length path < 3)%nat -> removeHook path = None.
Proof.
  intros H. unfold removeHook.
  apply Nat.ltb_lt in H. rewrite H. reflexivity.
Qed.

Lemma removeHook_some (path path' : list Vector2d) :
  removeHook path = Some path' ->
  exists front p3 p2 p1,
    path = front ++ [p3; p2; p1]
    /\ path' = front ++
                [p3;
                 if Qlt_bool (squaredDistance (vdiv (vadd p3 p1) 2) p1)
                             (squaredDistance p2 p1)
                 then vdiv (vadd p3 p1) 2 else p2;
                 p1].
Proof.
  intros H.
  destruct (Nat.lt_ge_cases (length path) 3) as [Hs | Hl].
  - rewrite removeHook_short in H by exact Hs. discriminate H.
  - destruct (last_three path Hl) as (front & p3 & p2 & p1 & ->).
    rewrite removeHook_last_three in H. injection H as <-.
    exists front, p3, p2, p1. split; reflexivity.
Qed.

Lemma removeHook_length (path path' : list Vector2d) :
  removeHook path = Some path' -> length path' = length path.
Proof.
  intros H. destruct (removeHook_some _ _ H) as (front & p3 & p2 & p1 & -> & ->).
  rewrite !length_app. reflexivity.
Qed.
End RemoveHookShape.

Section CreatePlanMore.
Import Facade.
Variable X : Externals.
Variables (p : SmacPlanner) (env : Env) (start goal : PoseStamped).

Ltac run_plan :=
  unfold createPlan, createPlan_body;
  unfold mbind, Prog_bind, emit, leave, defined, mret, Prog_ret; simpl.

(** X17.  An exception of the search is caught: [createPlan] logs one
    warning that quotes it as an invalid use and returns the stamped plan
    without poses; nothing is published, smoothed or upsampled. *)
Lemma createPlan_threw (a_star : AStarAlgorithm) (what : string) :
  _a_star p = Some a_star ->
  graph_created X p a_star ->
  createPath X (request X p env start goal a_star) = PathThrew what ->
  createPlan X p env start goal =
    (search_events X p env start goal ++
       [EvLog (failure_warning p ("invalid use: " +:+ what))],
     Return {| plan_header := plan_stamp p env; poses := [] |}).
Proof.
  intros Ha Hg Hp. unfold graph_created in Hg.
  run_plan. rewrite Ha. simpl. rewrite Hg. simpl. rewrite Hp. reflexivity.
Qed.

(** X18.  An exception of [createGraph] is not caught: it leaves
    [createPlan] right after the call, before a start or a goal is set. *)
Lemma createPlan_graph_threw (a_star : AStarAlgorithm) (what : string) :
  _a_star p = Some a_star ->
  createGraph X a_star
    (getSizeInCellsX (planning_costmap X p)) (getSizeInCellsY (planning_costmap X p))
    (_angle_quantizations p) (getCharMap (planning_costmap X p)) = Some what ->
  createPlan X p env start goal =
    ([EvCreateGraph (getSizeInCellsX (planning_costmap X p))
                    (getSizeInCellsY (planning_costmap X p))
                    (_angle_quantizations p)],
     Uncaught what).
Proof.
  intros Ha Hg. run_plan. rewrite Ha. simpl. rewrite Hg. reflexivity.
Qed.

(** X19.  When the smoother fails on a path of four points or more,
    [createPlan] logs the smoothing warning and returns the plan of the
    downsampled path; whatever the smoother left in the path is dropped,
    and neither [removeHook] nor the upsampler runs. *)
Lemma createPlan_smooth_failed (a_star : AStarAlgorithm) (smoother : Smoother)
      (path : IndexPath) (n : Z) (left_over : list Vector2d) :
  _a_star p = Some a_star ->
  graph_created X p a_star ->
  createPath X (request X p env start goal a_star) = PathFound path n ->
  _smoother p = Some smoother ->
  (4 <= length (path_to_world true path (planning_costmap X p)))%nat ->
  smooth X smoother (path_to_world true path (planning_costmap X p))
         (minimal_costmap (planning_costmap X p)) (_smoother_params p)
    = (false, left_over) ->
  createPlan X p env start goal =
    (search_events X p env start goal ++
       raw_publication env
         (plan_of p env (path_to_world true path (planning_costmap X p))) ++
       [EvSmooth (path_to_world true path (planning_costmap X p));
        EvLog (smoothing_warning p)],
     Return (plan_of p env (path_to_world true path (planning_costmap X p)))).
Proof.
  intros Ha Hg Hp Hs Hlen Hsm. unfold graph_created in Hg.
  assert (Hl : (length (path_to_world true path (planning_costmap X p)) <? 4)%nat = false)
    by (apply Nat.ltb_ge; exact Hlen).
  unfold minimal_costmap in Hsm.
  run_plan. rewrite Ha. simpl. rewrite Hg. simpl. rewrite Hp. simpl.
  rewrite Hs. simpl. unfold raw_publication, plan_of, smoothing_warning.
  destruct (0 <? raw_plan_subscribers env)%Z; simpl; rewrite Hl; simpl;
    rewrite Hsm; reflexivity.
Qed.

(** X20.  When the smoother succeeds and keeps the number of points, and
    no upsampler is configured, the returned plan is the smoothed path
    after [removeHook]; the raw plan that may have been published before
    is the downsampled path. *)
Lemma createPlan_smoothed (a_star : AStarAlgorithm) (smoother : Smoother)
      (path : IndexPath) (n : Z) (smoothed hooked : list Vector2d) :
  _a_star p = Some a_star ->
  graph_created X p a_star ->
  createPath X (request X p env start goal a_star) = PathFound path n ->
  _smoother p = Some smoother ->
  (4 <= length (path_to_world true path (planning_costmap X p)))%nat ->
  smooth X smoother (path_to_world true path (planning_costmap X p))
         (minimal_costmap (planning_costmap X p)) (_smoother_params p)
    = (true, smoothed) ->
  length smoothed = length (path_to_world true path (planning_costmap X p)) ->
  removeHook smoothed = Some hooked ->
  _upsampler p = None ->
  createPlan X p env start goal =
    (search_events X p env start goal ++
       raw_publication env
         (plan_of p env (path_to_world true path (planning_costmap X p))) ++
       [EvSmooth (path_to_world true path (planning_costmap X p));
        EvRemoveHook smoothed] ++
       smoothed_publication env (plan_of p env hooked),
     Return (plan_of p env hooked)).
Proof.
  intros Ha Hg Hp Hs Hlen Hsm Hsame Hhook Hup. unfold graph_created in Hg.
  assert (Hl : (length (path_to_world true path (planning_costmap X p)) <? 4)%nat = false)
    by (apply Nat.ltb_ge; exact Hlen).
  assert (Hh : length hooked = length (path_to_world true path (planning_costmap X p)))
    by (rewrite (removeHook_length _ _ Hhook); exact Hsame).
  unfold minimal_costmap in Hsm.
  run_plan. rewrite Ha. simpl. rewrite Hg. simpl. rewrite Hp. simpl.
  rewrite Hs. simpl.
  unfold raw_publication, smoothed_publication, plan_of.
  destruct (0 <? raw_plan_subscribers env)%Z; simpl; rewrite Hl; simpl;
    rewrite Hsm; simpl; rewrite Hhook; simpl;
    (destruct (0 <? smoothed_plan_subscribers env)%Z; simpl;
     [ rewrite write_poses_same by (rewrite length_map; congruence); simpl
     | ];
     rewrite Hup; simpl;
     rewrite fill_poses_same by (rewrite length_map; congruence);
     reflexivity).
Qed.

(** X21.  When the upsampler succeeds, the returned plan is the upsampled
    path, resized to its length, while the smoothed plan that may have
    been published before it is the path before upsampling. *)
Lemma createPlan_upsampled (a_star : AStarAlgorithm) (smoother : Smoother)
      (upsampler : Upsampler) (path : IndexPath) (n : Z)
      (smoothed hooked upsampled : list Vector2d) :
  _a_star p = Some a_star ->
  graph_created X p a_star ->
  createPath X (request X p env start goal a_star) = PathFound path n ->
  _smoother p = Some smoother ->
  (4 <= length (path_to_world true path (planning_costmap X p)))%nat ->
  smooth X smoother (path_to_world true path (planning_costmap X p))
         (minimal_costmap (planning_costmap X p)) (_smoother_params p)
    = (true, smoothed) ->
  length smoothed = length (path_to_world true path (planning_costmap X p)) ->
  removeHook smoothed = Some hooked ->
  _upsampler p = Some upsampler ->
  upsample X upsampler hooked (_smoother_params p) (_upsampling_ratio p)
    = (true, upsampled) ->
  createPlan X p env start goal =
    (search_events X p env start goal ++
       raw_publication env
         (plan_of p env (path_to_world true path (planning_costmap X p))) ++
       [EvSmooth (path_to_world true path (planning_costmap X p));
        EvRemoveHook smoothed] ++
       smoothed_publication env (plan_of p env hooked) ++
       [EvUpsample hooked (_upsampling_ratio p)],
     Return (plan_of p env upsampled)).
Proof.
  intros Ha Hg Hp Hs Hlen Hsm Hsame Hhook Hup Hu. unfold graph_created in Hg.
  assert (Hl : (length (path_to_world true path (planning_costmap X p)) <? 4)%nat = false)
    by (apply Nat.ltb_ge; exact Hlen).
  assert (Hh : length hooked = length (path_to_world true path (planning_costmap X p)))
    by (rewrite (removeHook_length _ _ Hhook); exact Hsame).
  unfold minimal_costmap in Hsm.
  run_plan. rewrite Ha. simpl. rewrite Hg. simpl. rewrite Hp. simpl.
  rewrite Hs. simpl.
  unfold raw_publication, smoothed_publication, plan_of.
  destruct (0 <? raw_plan_subscribers env)%Z; simpl; rewrite Hl; simpl;
    rewrite Hsm; simpl; rewrite Hhook; simpl;
    (destruct (0 <? smoothed_plan_subscribers env)%Z; simpl;
     [ rewrite write_poses_same by (rewrite length_map; congruence); simpl
     | ];
     rewrite Hup; simpl; rewrite Hu; simpl;
     rewrite fill_poses_same by (apply resize_poses_length);
     reflexivity).
Qed.

Lemma createPlan_upsample_failed (a_star : AStarAlgorithm) (smoother : Smoother)
      (upsampler : Upsampler) (path : IndexPath) (n : Z)
      (smoothed hooked : list Vector2d) :
  _a_star p = Some a_star ->
  graph_created X p a_star ->
  createPath X (request X p env start goal a_star) = PathFound path n ->
  _smoother p = Some smoother ->
  (4 <= length (path_to_world true path (planning_costmap X p)))%nat ->
  smooth X smoother (path_to_world true path (planning_costmap X p))
         (minimal_costmap (planning_costmap X p)) (_smoother_params p)
    = (true, smoothed) ->
  length smoothed = length (path_to_world true path (planning_costmap X p)) ->
  removeHook smoothed = Some hooked ->
  _upsampler p = Some upsampler ->
  upsample X upsampler hooked (_smoother_params p) (_upsampling_ratio p)
    = (false, hooked) ->
  createPlan X p env start goal =
    (search_events X p env start goal ++
       raw_publication env
         (plan_of p env (path_to_world true path (planning_costmap X p))) ++
       [EvSmooth (path_to_world true path (planning_costmap X p));
        EvRemoveHook smoothed] ++
       smoothed_publication env (plan_of p env hooked) ++
       [EvUpsample hooked (_upsampling_ratio p); EvLog (upsampling_warning p)],
     Return (plan_of p env hooked)).
Proof.
  intros Ha Hg Hp Hs Hlen Hsm Hsame Hhook Hup Hu. unfold graph_created in Hg.
  assert (Hl : (length (path_to_world true path (planning_costmap X p)) <? 4)%nat = false)
    by (apply Nat.ltb_ge; exact Hlen).
  assert (Hh : length hooked = length (path_to_world true path (planning_costmap X p)))
    by (rewrite (removeHook_length _ _ Hhook); exact Hsame).
  unfold minimal_costmap in Hsm.
  run_plan. rewrite Ha. simpl. rewrite Hg. simpl. rewrite Hp. simpl.
  rewrite Hs. simpl.
  unfold raw_publication, smoothed_publication, plan_of, upsampling_warning.
  destruct (0 <? raw_plan_subscribers env)%Z; simpl; rewrite Hl; simpl;
    rewrite Hsm; simpl; rewrite Hhook; simpl;
    (destruct (0 <? smoothed_plan_subscribers env)%Z; simpl;
     [ rewrite write_poses_same by (rewrite length_map; congruence); simpl
     | ];
     rewrite Hup; simpl; rewrite Hu; simpl;
     rewrite fill_poses_same by (rewrite length_map; congruence);
     reflexivity).
Qed.
End CreatePlanMore.

Lemma div4_keep (i : nat) :
  (i mod 4 = 0 -> S ((i + 3) / 4) = (S i + 3) / 4)%nat.
Proof.
  intros E. pose proof (Nat.div_mod_eq i 4) as Hdm.
  rewrite <- (Nat.div_unique (i + 3) 4 (i / 4) 3) by lia.
  rewrite <- (Nat.div_unique (S i + 3) 4 (S (i / 4)) 0) by lia. reflexivity.
Qed.

Lemma div4_skip (i : nat) :
  (i mod 4 <> 0 -> (i + 3) / 4 = (S i + 3) / 4)%nat.
Proof.
  intros N. pose proof (Nat.div_mod_eq i 4) as Hdm.
  pose proof (Nat.mod_upper_bound i 4 ltac:(lia)) as Hub.
  rewrite <- (Nat.div_unique (i + 3) 4 (S (i / 4)) (i mod 4 - 1)) by lia.
  rewrite <- (Nat.div_unique (S i + 3) 4 (S (i / 4)) (i mod 4)) by lia. reflexivity.
Qed.

Lemma div4_same_block (i : nat) :
  (S i mod 4 <> 0 -> S i / 4 = i / 4)%nat.
Proof.
  intros N. pose proof (Nat.div_mod_eq i 4) as Hdm.
  pose proof (Nat.mod_upper_bound i 4 ltac:(lia)) as Hub.
  destruct (Nat.eq_dec (i mod 4) 3) as [E3 | N3].
  - exfalso. apply N.
    rewrite <- (Nat.mod_unique (S i) 4 (S (i / 4)) 0); lia.
  - rewrite <- (Nat.div_unique (S i) 4 (i / 4) (S (i mod 4))) by lia. reflexivity.
Qed.

Section Downsampling.
Import Facade.
Variables (path : IndexPath) (costmap : Costmap2D).

Lemma convert_loop_length (k : nat) :
  (k <= length path)%nat ->
  length (convert_loop true path costmap k) = ((k + 3) / 4)%nat.
Proof.
  induction k as [ | i IH]; intros Hk; [ reflexivity | ].
  cbn [convert_loop andb].
  destruct (lookup_lt_is_Some_2 path i ltac:(lia)) as [[mx my] Hi]. rewrite Hi.
  destruct (Nat.eqb_spec (i mod 4) 0) as [E | N]; cbn [negb length];
    rewrite IH by lia.
  - apply div4_keep; exact E.
  - apply div4_skip; exact N.
Qed.

Lemma convert_loop_last (k : nat) (c : Q * Q) :
  (0 < k <= length path)%nat ->
  path !! 0%nat = Some c ->
  last (convert_loop true path costmap k) = Some (cell_centre costmap c).
Proof.
  intros Hk H0. induction k as [ | i IH]; [ lia | ].
  cbn [convert_loop andb].
  destruct i as [ | i].
  - cbn. rewrite H0. destruct c. reflexivity.
  - destruct (lookup_lt_is_Some_2 path (S i) ltac:(lia)) as [[mx my] Hi]. rewrite Hi.
    destruct (negb (S i mod 4 =? 0)%nat); [ apply IH; lia | ].
    rewrite last_cons, IH by lia. reflexivity.
Qed.

Lemma convert_loop_head (k : nat) :
  (0 < k <= length path)%nat ->
  head (convert_loop true path costmap k)
  = cell_centre costmap <$> path !! (4 * ((k - 1) / 4))%nat.
Proof.
  intros Hk. induction k as [ | i IH]; [ lia | ].
  cbn [convert_loop andb].
  replace (S i - 1)%nat with i by lia.
  destruct (lookup_lt_is_Some_2 path i ltac:(lia)) as [[mx my] Hi]. rewrite Hi.
  pose proof (Nat.div_mod_eq i 4) as Hdm.
  pose proof (Nat.mod_upper_bound i 4 ltac:(lia)) as Hub.
  destruct (Nat.eqb_spec (i mod 4) 0) as [E | N]; cbn [negb].
  - replace (4 * (i / 4))%nat with i by lia. rewrite Hi. reflexivity.
  - destruct i as [ | i]; [ simpl in N; lia | ].
    rewrite IH by lia. replace (S i - 1)%nat with i by lia.
    rewrite (div4_same_block i N). reflexivity.
Qed.
End Downsampling.

Section Stamping.
Import Facade.
Variable hdr : Header.

Lemma mk_pose_stamped (v : Vector2d) : stamped hdr (mk_pose hdr v).
Proof. repeat split. Qed.

Lemma map_mk_pose_stamped (l : list Vector2d) :
  Forall (stamped hdr) (map (mk_pose hdr) l).
Proof.
  induction l as [ | v l IH]; simpl; [ apply List.Forall_nil | ].
  apply List.Forall_cons; [ apply mk_pose_stamped | exact IH ].
Qed.

Lemma fill_poses_stamped (poses filled : list PoseStamped) (pw : list Vector2d) :
  fill_poses (mk_pose hdr) poses pw = Some filled -> Forall (stamped hdr) filled.
Proof.
  revert pw filled. induction poses as [ | ps poses IH]; intros pw filled H.
  - injection H as <-. apply List.Forall_nil.
  - destruct pw as [ | v pw]; [ discriminate H | ]. simpl in H.
    destruct (fill_poses (mk_pose hdr) poses pw) as [l | ] eqn:E; [ | discriminate H ].
    injection H as <-.
    apply List.Forall_cons; [ apply mk_pose_stamped | exact (IH _ _ E) ].
Qed.
End Stamping.

Section EveryPath.
Import Facade.
Variable X : Externals.
Variables (p : SmacPlanner) (env : Env) (start goal : PoseStamped).

(** The branches after a successful smoothing. *)
Ltac refined_paths :=
  repeat match goal with
    | |- context [removeHook ?sp] => destruct (removeHook sp) as [hp | ]; simpl
    | |- context [(0 <? smoothed_plan_subscribers env)%Z] =>
        destruct (0 <? smoothed_plan_subscribers env)%Z; simpl
    | |- context [write_poses ?f ?a ?b] => destruct (write_poses f a b); simpl
    | |- context [_upsampler p] => destruct (_upsampler p) as [up | ]; simpl
    | |- context [upsample X ?u ?a ?b ?c] =>
        destruct (upsample X u a b c) as [[ | ] upath]; simpl
    | |- context [fill_poses ?f ?a ?b] =>
        let E := fresh "Efill" in
        destruct (fill_poses f a b) eqn:E; simpl
    end.

(** The branches once the search has been called. *)
Ltac searched_paths :=
  destruct (createPath X _) as [path n | path n | what]; simpl;
  [ destruct (0 <? raw_plan_subscribers env)%Z; simpl;
    (destruct (_smoother p) as [sm | ]; simpl;
     [ match goal with |- context [(?a <? 4)%nat] => destruct (a <? 4)%nat end;
       simpl;
       [ | destruct (smooth X sm _ _ _) as [[ | ] sp]; simpl;
           [ refined_paths | ] ]
     | ])
  | match goal with
    | |- context [(?i <? getMaxIterations ?a)%Z] =>
        destruct (i <? getMaxIterations a)%Z
    end; simpl
  | ].

(** Every branch that [createPlan] can take. *)
Ltac every_path :=
  unfold createPlan, createPlan_body;
  generalize (goal_cell X p env start goal) as g;
  generalize (start_cell X p env start) as s;
  intros [[sx sy] sb] [[gx gy] gb];
  unfold mbind, Prog_bind, emit, leave, defined, mret, Prog_ret; simpl;
  destruct (_a_star p) as [a_star | ]; simpl;
  [ destruct (createGraph X a_star _ _ _ _); simpl; [ | searched_paths ] | ].

(** X26.  A call of [createPlan] logs at most one warning, whichever
    branch it takes. *)
Lemma createPlan_warnings_le_1 :
  (length (warnings (createPlan X p env start goal).1) <= 1)%nat.
Proof.
  every_path; cbn; lia.
Qed.

(** X27.  Every plan that [createPlan] returns carries the stamp taken
    in this call, and each of its poses has that header, height 0 and the
    identity orientation. *)
Lemma createPlan_returned_stamped (plan : Path) :
  (createPlan X p env start goal).2 = Return plan ->
  plan_header plan = plan_stamp p env
  /\ Forall (stamped (plan_stamp p env)) (poses plan).
Proof.
  every_path; intros H; try discriminate H; injection H as <-; simpl;
    (split; [ reflexivity | ]);
    first [ apply List.Forall_nil
          | apply map_mk_pose_stamped
          | eapply fill_poses_stamped; eassumption ].
Qed.

(** X25.  Once the graph is created, [createPlan] calls [createGraph],
    [setStart], [setGoal] and [createPath] once each, in this order and
    before anything else, whatever [worldToMap] has answered and however
    the search ends; the engine is not driven again in the call. *)
Lemma createPlan_search_first (a_star : AStarAlgorithm) :
  _a_star p = Some a_star ->
  graph_created X p a_star ->
  exists rest,
    (createPlan X p env start goal).1 = search_events X p env start goal ++ rest
    /\ Forall (fun e => match e with
                        | EvCreateGraph _ _ _ | EvSetStart _ _ _
                        | EvSetGoal _ _ _ | EvCreatePath _ => False
                        | _ => True
                        end) rest.
Proof.
  intros Ha Hg. unfold graph_created in Hg.
  unfold createPlan, createPlan_body, search_events.
  revert Hg.
  generalize (goal_cell X p env start goal) as g.
  generalize (start_cell X p env start) as s.
  intros [[sx sy] sb] [[gx gy] gb] Hg.
  unfold mbind, Prog_bind, emit, leave, defined, mret, Prog_ret; simpl.
  rewrite Ha. simpl. rewrite Hg. simpl.
  searched_paths;
    (eexists; split; [ reflexivity | ]);
    repeat (apply List.Forall_cons; [ exact I | ]); apply List.Forall_nil.
Qed.

Lemma createPlan_smoother_called (a_star : AStarAlgorithm) (smoother : Smoother)
      (path : IndexPath) (n : Z) :
  _a_star p = Some a_star ->
  graph_created X p a_star ->
  createPath X (request X p env start goal a_star) = PathFound path n ->
  _smoother p = Some smoother ->
  (4 <= length (path_to_world true path (planning_costmap X p)))%nat ->
  In (EvSmooth (path_to_world true path (planning_costmap X p)))
     (createPlan X p env start goal).1.
Proof.
  intros Ha Hg Hp Hs Hlen. unfold graph_created in Hg.
  assert (Hl : (length (path_to_world true path (planning_costmap X p)) <? 4)%nat = false)
    by (apply Nat.ltb_ge; exact Hlen).
  unfold createPlan, createPlan_body.
  unfold mbind, Prog_bind, emit, leave, defined, mret, Prog_ret; simpl.
  rewrite Ha. simpl. rewrite Hg. simpl. rewrite Hp. simpl. rewrite Hs. simpl.
  destruct (0 <? raw_plan_subscribers env)%Z; simpl; rewrite Hl; simpl;
    (destruct (smooth X smoother _ _ _) as [[ | ] sp]; simpl;
     [ refined_paths | ]);
    rewrite ?in_app_iff; simpl; tauto.
Qed.
End EveryPath.

(** X28.  Where [removeHook] is defined the path has three points or
    more; the result has the same length and the same points except the
    second-to-last, so both ends of the path stay where they are. *)
Theorem removeHook_keeps_other_points (path path' : list Facade.Vector2d) :
  Facade.removeHook path = Some path' ->
  (3 <= length path)%nat
  /\ length path' = length path
  /\ (forall i, i <> (length path - 2)%nat -> path' !! i = path !! i)
  /\ head path' = head path
  /\ last path' = last path.
Proof.
  intros H.
  destruct (removeHook_some _ _ H) as (front & p3 & p2 & p1 & -> & ->).
  split; [ rewrite length_app; simpl; lia | ].
  split; [ rewrite !length_app; reflexivity | ].
  split; [ | split ].
  - intros i Hi. rewrite length_app in Hi. simpl in Hi.
    destruct (Nat.lt_ge_cases i (length front)) as [Hlt | Hge].
    + rewrite !lookup_app_l by exact Hlt. reflexivity.
    + rewrite !lookup_app_r by exact Hge.
      destruct (i - length front)%nat as [ | [ | k]] eqn:E; try reflexivity. lia.
  - destruct front; reflexivity.
  - change [p3; p2; p1] with ([p3; p2] ++ [p1]).
    match goal with
    | |- last (front ++ [p3; ?m; p1]) = _ =>
        change [p3; m; p1] with ([p3; m] ++ [p1])
    end.
    rewrite !app_assoc, !last_snoc. reflexivity.
Qed.

Lemma removeHook_keeps_other_points_witness :
  (3 <= length Demo.long_world)%nat
  /\ length Demo.long_hooked = length Demo.long_world
  /\ (forall i, i <> (length Demo.long_world - 2)%nat ->
                Demo.long_hooked !! i = Demo.long_world !! i)
  /\ head Demo.long_hooked = head Demo.long_world
  /\ last Demo.long_hooked = last Demo.long_world.
Proof.
  apply (removeHook_keeps_other_points Demo.long_world Demo.long_hooked).
  vm_compute. reflexivity.
Defined.

(** X29.  When [removeHook] moves the second-to-last point, the point lands
    midway between its neighbours (equally far from both, at half their
    distance) and strictly closer to the end of the path than it was;
    otherwise nothing changes. *)
Theorem removeHook_moves_to_midpoint (path path' : list Facade.Vector2d) :
  Facade.removeHook path = Some path' ->
  exists front p3 p2 p1 moved,
    path = front ++ [p3; p2; p1]
    /\ path' = front ++ [p3; moved; p1]
    /\ (Facade.squaredDistance moved p1 <= Facade.squaredDistance p2 p1)%Q
    /\ (moved = p2
        \/ (Facade.squaredDistance moved p1 < Facade.squaredDistance p2 p1
            /\ Facade.squaredDistance moved p3 == Facade.squaredDistance moved p1
            /\ 4 * Facade.squaredDistance moved p1 == Facade.squaredDistance p3 p1)%Q).
Proof.
  intros H.
  destruct (removeHook_some _ _ H) as (front & p3 & p2 & p1 & -> & ->).
  exists front, p3, p2, p1.
  destruct (Facade.Qlt_bool
              (Facade.squaredDistance (Facade.vdiv (Facade.vadd p3 p1) 2) p1)
              (Facade.squaredDistance p2 p1)) eqn:E.
  - eexists. split; [ reflexivity | ]. split; [ reflexivity | ].
    apply Qlt_bool_true in E.
    split; [ apply Qlt_le_weak; exact E | ]. right.
    split; [ exact E | ].
    destruct p3 as [x3 y3], p1 as [x1 y1].
    unfold Facade.squaredDistance, Facade.vdiv, Facade.vadd. simpl.
    split; field.
  - eexists. split; [ reflexivity | ]. split; [ reflexivity | ].
    split; [ apply Qle_refl | left; reflexivity ].
Qed.

(** X30.  The world point of a cell lies strictly inside the cell, and two
    cells with the same world point are the same cell. *)
Theorem getWorldCoords_inside_cell (mx my mx' my' : Q) (costmap : Facade.Costmap2D) :
  (0 < Facade.getResolution costmap)%Q ->
  (Facade.getOriginX costmap + mx * Facade.getResolution costmap
     < Facade.vx (Facade.getWorldCoords mx my costmap)
     < Facade.getOriginX costmap + (mx + 1) * Facade.getResolution costmap)%Q
  /\ (Facade.getOriginY costmap + my * Facade.getResolution costmap
        < Facade.vy (Facade.getWorldCoords mx my costmap)
        < Facade.getOriginY costmap + (my + 1) * Facade.getResolution costmap)%Q
  /\ ((Facade.vx (Facade.getWorldCoords mx my costmap)
       == Facade.vx (Facade.getWorldCoords mx' my' costmap))%Q ->
      (Facade.vy (Facade.getWorldCoords mx my costmap)
       == Facade.vy (Facade.getWorldCoords mx' my' costmap))%Q ->
      (mx == mx' /\ my == my')%Q).
Proof.
  intros Hres. unfold Facade.getWorldCoords. simpl.
  set (r := Facade.getResolution costmap) in *.
  set (ox := Facade.getOriginX costmap). set (oy := Facade.getOriginY costmap).
  assert (Hhalf : forall m : Q, ((m + 0.5) * r == m * r + r * (1 # 2))%Q)
    by (intros m; ring).
  assert (Hone : forall m : Q, ((m + 1) * r == m * r + r)%Q) by (intros m; ring).
  split; [ | split ].
  - rewrite Hhalf, Hone. generalize (mx * r)%Q as t. intros t. split; Lqa.lra.
  - rewrite Hhalf, Hone. generalize (my * r)%Q as t. intros t. split; Lqa.lra.
  - intros Hx Hy. rewrite !Hhalf in Hx, Hy.
    assert (Hdx : ((mx - mx') * r == 0)%Q).
    { assert (Hd : ((mx - mx') * r == mx * r - mx' * r)%Q) by ring.
      rewrite Hd. revert Hx.
      generalize (mx * r)%Q as t. generalize (mx' * r)%Q as t'. intros; Lqa.lra. }
    assert (Hdy : ((my - my') * r == 0)%Q).
    { assert (Hd : ((my - my') * r == my * r - my' * r)%Q) by ring.
      rewrite Hd. revert Hy.
      generalize (my * r)%Q as t. generalize (my' * r)%Q as t'. intros; Lqa.lra. }
    apply Qmult_integral in Hdx. apply Qmult_integral in Hdy.
    split; [ destruct Hdx | destruct Hdy ]; Lqa.lra.
Qed.


Lemma removeHook_moves_to_midpoint_witness :
  exists front p3 p2 p1 moved,
    Demo.long_world = front ++ [p3; p2; p1]
    /\ Demo.long_hooked = front ++ [p3; moved; p1]
    /\ (Facade.squaredDistance moved p1 <= Facade.squaredDistance p2 p1)%Q
    /\ (moved = p2
        \/ (Facade.squaredDistance moved p1 < Facade.squaredDistance p2 p1
            /\ Facade.squaredDistance moved p3 == Facade.squaredDistance moved p1
            /\ 4 * Facade.squaredDistance moved p1 == Facade.squaredDistance p3 p1)%Q).
Proof.
  apply (removeHook_moves_to_midpoint Demo.long_world Demo.long_hooked).
  vm_compute. reflexivity.
Defined.

Lemma getWorldCoords_inside_cell_witness :
  (Facade.getOriginX Demo.costmap + 3 * Facade.getResolution Demo.costmap
     < Facade.vx (Facade.getWorldCoords 3 4 Demo.costmap)
     < Facade.getOriginX Demo.costmap + (3 + 1) * Facade.getResolution Demo.costmap)%Q
  /\ (Facade.getOriginY Demo.costmap + 4 * Facade.getResolution Demo.costmap
        < Facade.vy (Facade.getWorldCoords 3 4 Demo.costmap)
        < Facade.getOriginY Demo.costmap + (4 + 1) * Facade.getResolution Demo.costmap)%Q
  /\ ((Facade.vx (Facade.getWorldCoords 3 4 Demo.costmap)
       == Facade.vx (Facade.getWorldCoords 5 6 Demo.costmap))%Q ->
      (Facade.vy (Facade.getWorldCoords 3 4 Demo.costmap)
       == Facade.vy (Facade.getWorldCoords 5 6 Demo.costmap))%Q ->
      (3 == 5 /\ 4 == 6)%Q).
Proof.
  apply (getWorldCoords_inside_cell 3 4 5 6 Demo.costmap). reflexivity.
Defined.

(** X23.  The world path built for the smoother has one point for every
    fourth cell, counted from the goal end of the index path: a quarter of
    the cells, rounded up.  It ends at the goal cell and begins at the
    cell with index [4 * ((n - 1) / 4)], which is the start cell only when
    [n - 1] is a multiple of four. *)
Theorem path_to_world_downsampled (path : list (Q * Q)) (costmap : Facade.Costmap2D) :
  length (Facade.path_to_world true path costmap) = ((length path + 3) / 4)%nat
  /\ head (Facade.path_to_world true path costmap)
     = Facade.cell_centre costmap <$> path !! (4 * ((length path - 1) / 4))%nat
  /\ last (Facade.path_to_world true path costmap)
     = Facade.cell_centre costmap <$> head path.
Proof.
  unfold Facade.path_to_world.
  split; [ apply convert_loop_length; lia | ].
  destruct path as [ | c path]; [ split; reflexivity | ].
  split.
  - apply convert_loop_head. simpl. lia.
  - rewrite (convert_loop_last _ _ _ c); [ reflexivity | simpl; lia | reflexivity ].
Qed.

(** X22.  With no smoother configured, a path found by the search becomes
    a plan with one waypoint per cell, the cell centres in reverse order
    of the index path (so from the start end to the goal end); nothing is
    smoothed or upsampled. *)
Theorem createPlan_without_smoother_plan
    (X : Facade.Externals) (p : Facade.SmacPlanner) (env : Facade.Env)
    (start goal : Facade.PoseStamped)
    (a_star : Facade.AStarAlgorithm) (path : list (Q * Q)) (n : Z) :
  Facade._a_star p = Some a_star ->
  Facade.graph_created X p a_star ->
  Facade.createPath X (Facade.request X p env start goal a_star)
    = Facade.PathFound path n ->
  Facade._smoother p = None ->
  exists t plan,
    Facade.createPlan X p env start goal = (t, Facade.Return plan)
    /\ Facade.waypoints plan
       = map (Facade.cell_centre (Facade.planning_costmap X p)) (rev path)
    /\ Forall (fun e => Facade.is_refinement e = false) t
    /\ Facade.warnings t = [].
Proof.
  intros Ha Hg Hp Hs.
  rewrite (createPlan_without_smoother X p env start goal a_star path n Ha Hg Hp Hs).
  eexists; eexists; split; [ reflexivity | ].
  rewrite waypoints_plan_of, path_to_world_all.
  split; [ reflexivity | ].
  unfold Facade.raw_publication.
  destruct (0 <? Facade.raw_plan_subscribers env)%Z; split;
    first [ reflexivity
          | repeat (apply List.Forall_cons; [ reflexivity | ]); apply List.Forall_nil ].
Qed.

(** X24.  With a smoother configured a path of twelve cells or fewer is
    returned as it was downsampled, without any call of the smoother; a
    path of thirteen cells or more is handed to the smoother. *)
Theorem createPlan_smoothing_threshold
    (X : Facade.Externals) (p : Facade.SmacPlanner) (env : Facade.Env)
    (start goal : Facade.PoseStamped)
    (a_star : Facade.AStarAlgorithm) (smoother : Facade.Smoother)
    (path : list (Q * Q)) (n : Z) :
  Facade._a_star p = Some a_star ->
  Facade.graph_created X p a_star ->
  Facade.createPath X (Facade.request X p env start goal a_star)
    = Facade.PathFound path n ->
  Facade._smoother p = Some smoother ->
  ((length path <= 12)%nat ->
   (Facade.createPlan X p env start goal).2
     = Facade.Return
         (Facade.plan_of p env
            (Facade.path_to_world true path (Facade.planning_costmap X p)))
   /\ Forall (fun e => Facade.is_refinement e = false)
             (Facade.createPlan X p env start goal).1)
  /\ ((13 <= length path)%nat ->
      In (Facade.EvSmooth (Facade.path_to_world true path (Facade.planning_costmap X p)))
         (Facade.createPlan X p env start goal).1).
Proof.
  intros Ha Hg Hp Hs.
  pose proof (convert_loop_length path (Facade.planning_costmap X p) (length path)
                ltac:(lia)) as Hlen.
  fold (Facade.path_to_world true path (Facade.planning_costmap X p)) in Hlen.
  split; intros Hn.
  - assert (Hshort : (length (Facade.path_to_world true path
                                 (Facade.planning_costmap X p)) < 4)%nat).
    { rewrite Hlen. apply Nat.Div0.div_lt_upper_bound. lia. }
    rewrite (createPlan_short_path X p env start goal a_star smoother path n
               Ha Hg Hp Hs Hshort).
    split; [ reflexivity | ].
    unfold Facade.raw_publication.
    destruct (0 <? Facade.raw_plan_subscribers env)%Z; simpl;
      repeat (apply List.Forall_cons; [ reflexivity | ]); apply List.Forall_nil.
  - apply (createPlan_smoother_called X p env start goal a_star smoother path n
             Ha Hg Hp Hs).
    rewrite Hlen. apply Nat.div_le_lower_bound; lia.
Qed.

Lemma createPlan_without_smoother_plan_witness :
  let r := Facade.PathFound Demo.long_path 13 in
  let params := [("GridBased.smooth_path"%string, Facade.PBool false)] in
  let start := Demo.pose_at 0.5 0.5 Demo.facing_east in
  let goal := Demo.pose_at 9.5 3.5 Demo.facing_east in
  exists t plan,
    Facade.createPlan (Demo.externals r) (Demo.planner r params) Demo.env start goal
      = (t, Facade.Return plan)
    /\ Facade.waypoints plan
       = map (Facade.cell_centre
                (Facade.planning_costmap (Demo.externals r) (Demo.planner r params)))
             (rev Demo.long_path)
    /\ Forall (fun e => Facade.is_refinement e = false) t
    /\ Facade.warnings t = [].
Proof.
  cbv zeta.
  apply (createPlan_without_smoother_plan _ _ _ _ _
           (Demo.engine (Facade.PathFound Demo.long_path 13)
              [("GridBased.smooth_path"%string, Facade.PBool false)])
           Demo.long_path 13);
    vm_compute; reflexivity.
Defined.

Lemma createPlan_smoothing_threshold_witness :
  let r := Facade.PathFound Demo.long_path 13 in
  let X := Demo.externals r in
  let p := Demo.planner r [] in
  let start := Demo.pose_at 0.5 0.5 Demo.facing_east in
  let goal := Demo.pose_at 9.5 3.5 Demo.facing_east in
  ((length Demo.long_path <= 12)%nat ->
   (Facade.createPlan X p Demo.env start goal).2
     = Facade.Return
         (Facade.plan_of p Demo.env
            (Facade.path_to_world true Demo.long_path (Facade.planning_costmap X p)))
   /\ Forall (fun e => Facade.is_refinement e = false)
             (Facade.createPlan X p Demo.env start goal).1)
  /\ ((13 <= length Demo.long_path)%nat ->
      In (Facade.EvSmooth
            (Facade.path_to_world true Demo.long_path (Facade.planning_costmap X p)))
         (Facade.createPlan X p Demo.env start goal).1).
Proof.
  cbv zeta.
  apply (createPlan_smoothing_threshold _ _ _ _ _
           (Demo.engine (Facade.PathFound Demo.long_path 13) [])
           {| Facade.smoother_options := [] |} Demo.long_path 13);
    vm_compute; reflexivity.
Defined.

Lemma createPlan_threw_witness :
  let r := Facade.PathThrew "start or goal is not valid" in
  let X := Demo.externals r in
  let p := Demo.planner r [] in
  let start := Demo.pose_at 0.5 0.5 Demo.facing_east in
  let goal := Demo.pose_at 5.5 0.5 Demo.facing_east in
  Facade.createPlan X p Demo.env start goal =
    (Facade.search_events X p Demo.env start goal ++
       [Facade.EvLog (Facade.failure_warning p
                        ("invalid use: " +:+ "start or goal is not valid"))],
     Facade.Return {| Facade.plan_header := Facade.plan_stamp p Demo.env;
                      Facade.poses := [] |}).
Proof.
  cbv zeta.
  apply (createPlan_threw _ _ _ _ _
           (Demo.engine (Facade.PathThrew "start or goal is not valid") [])
           "start or goal is not valid");
    vm_compute; reflexivity.
Defined.

Lemma createPlan_graph_threw_witness :
  let r := Facade.PathThrew "" in
  let X := Demo.collaborators r (Some "Invalid motion model"%string) true true in
  let p := Demo.planner r [] in
  let start := Demo.pose_at 0.5 0.5 Demo.facing_east in
  let goal := Demo.pose_at 5.5 0.5 Demo.facing_east in
  Facade.createPlan X p Demo.env start goal =
    ([Facade.EvCreateGraph
        (Facade.getSizeInCellsX (Facade.planning_costmap X p))
        (Facade.getSizeInCellsY (Facade.planning_costmap X p))
        (Facade._angle_quantizations p)],
     Facade.Uncaught "Invalid motion model").
Proof.
  cbv zeta.
  apply (createPlan_graph_threw _ _ _ _ _
           (Demo.engine (Facade.PathThrew "") []) "Invalid motion model");
    vm_compute; reflexivity.
Defined.

Lemma createPlan_smooth_failed_witness :
  let r := Facade.PathFound Demo.long_path 13 in
  let X := Demo.collaborators r None false true in
  let p := Demo.planner r [] in
  let start := Demo.pose_at 0.5 0.5 Demo.facing_east in
  let goal := Demo.pose_at 9.5 3.5 Demo.facing_east in
  Facade.createPlan X p Demo.env start goal =
    (Facade.search_events X p Demo.env start goal ++
       Facade.raw_publication Demo.env
         (Facade.plan_of p Demo.env
            (Facade.path_to_world true Demo.long_path (Facade.planning_costmap X p))) ++
       [Facade.EvSmooth
          (Facade.path_to_world true Demo.long_path (Facade.planning_costmap X p));
        Facade.EvLog (Facade.smoothing_warning p)],
     Facade.Return
       (Facade.plan_of p Demo.env
          (Facade.path_to_world true Demo.long_path (Facade.planning_costmap X p)))).
Proof.
  cbv zeta.
  apply (createPlan_smooth_failed _ _ _ _ _
           (Demo.engine (Facade.PathFound Demo.long_path 13) [])
           {| Facade.smoother_options := [] |} Demo.long_path 13 Demo.long_world);
    first [ vm_compute; reflexivity | vm_compute; lia ].
Defined.

Lemma createPlan_smoothed_witness :
  let r := Facade.PathFound Demo.long_path 13 in
  let X := Demo.externals r in
  let p := Demo.planner r [] in
  let start := Demo.pose_at 0.5 0.5 Demo.facing_east in
  let goal := Demo.pose_at 9.5 3.5 Demo.facing_east in
  Facade.createPlan X p Demo.env start goal =
    (Facade.search_events X p Demo.env start goal ++
       Facade.raw_publication Demo.env
         (Facade.plan_of p Demo.env
            (Facade.path_to_world true Demo.long_path (Facade.planning_costmap X p))) ++
       [Facade.EvSmooth
          (Facade.path_to_world true Demo.long_path (Facade.planning_costmap X p));
        Facade.EvRemoveHook Demo.long_world] ++
       Facade.smoothed_publication Demo.env (Facade.plan_of p Demo.env Demo.long_hooked),
     Facade.Return (Facade.plan_of p Demo.env Demo.long_hooked)).
Proof.
  cbv zeta.
  apply (createPlan_smoothed _ _ _ _ _
           (Demo.engine (Facade.PathFound Demo.long_path 13) [])
           {| Facade.smoother_options := [] |} Demo.long_path 13
           Demo.long_world Demo.long_hooked);
    first [ vm_compute; reflexivity | vm_compute; lia ].
Defined.

Lemma createPlan_upsampled_witness :
  let r := Facade.PathFound Demo.long_path 13 in
  let params := [("GridBased.upsample_path"%string, Facade.PBool true)] in
  let X := Demo.externals r in
  let p := Demo.planner r params in
  let start := Demo.pose_at 0.5 0.5 Demo.facing_east in
  let goal := Demo.pose_at 9.5 3.5 Demo.facing_east in
  Facade.createPlan X p Demo.env start goal =
    (Facade.search_events X p Demo.env start goal ++
       Facade.raw_publication Demo.env
         (Facade.plan_of p Demo.env
            (Facade.path_to_world true Demo.long_path (Facade.planning_costmap X p))) ++
       [Facade.EvSmooth
          (Facade.path_to_world true Demo.long_path (Facade.planning_costmap X p));
        Facade.EvRemoveHook Demo.long_world] ++
       Facade.smoothed_publication Demo.env (Facade.plan_of p Demo.env Demo.long_hooked) ++
       [Facade.EvUpsample Demo.long_hooked (Facade._upsampling_ratio p)],
     Facade.Return (Facade.plan_of p Demo.env Demo.long_hooked)).
Proof.
  cbv zeta.
  apply (createPlan_upsampled _ _ _ _ _
           (Demo.engine (Facade.PathFound Demo.long_path 13)
              [("GridBased.upsample_path"%string, Facade.PBool true)])
           {| Facade.smoother_options := [] |}
           {| Facade.upsampler_options := [] |} Demo.long_path 13
           Demo.long_world Demo.long_hooked Demo.long_hooked);
    first [ vm_compute; reflexivity | vm_compute; lia ].
Defined.

Lemma createPlan_returned_stamped_witness :
  let r := Facade.PathFound Demo.long_path 13 in
  let X := Demo.externals r in
  let p := Demo.planner r [] in
  let start := Demo.pose_at 0.5 0.5 Demo.facing_east in
  let goal := Demo.pose_at 9.5 3.5 Demo.facing_east in
  Facade.plan_header (Facade.plan_of p Demo.env Demo.long_hooked)
    = Facade.plan_stamp p Demo.env
  /\ Forall (Facade.stamped (Facade.plan_stamp p Demo.env))
            (Facade.poses (Facade.plan_of p Demo.env Demo.long_hooked)).
Proof.
  cbv zeta.
  apply (createPlan_returned_stamped
           (Demo.externals (Facade.PathFound Demo.long_path 13))
           (Demo.planner (Facade.PathFound Demo.long_path 13) []) Demo.env
           (Demo.pose_at 0.5 0.5 Demo.facing_east)
           (Demo.pose_at 9.5 3.5 Demo.facing_east)).
  vm_compute. reflexivity.
Defined.

Lemma createPlan_search_first_witness :
  let r := Facade.PathFound Demo.long_path 13 in
  let X := Demo.externals r in
  let p := Demo.planner r [] in
  let start := Demo.pose_at 0.5 0.5 Demo.facing_east in
  let goal := Demo.pose_at 9.5 3.5 Demo.facing_east in
  exists rest,
    (Facade.createPlan X p Demo.env start goal).1
      = Facade.search_events X p Demo.env start goal ++ rest
    /\ Forall (fun e => match e with
                        | Facade.EvCreateGraph _ _ _ | Facade.EvSetStart _ _ _
                        | Facade.EvSetGoal _ _ _ | Facade.EvCreatePath _ => False
                        | _ => True
                        end) rest.
Proof.
  cbv zeta.
  apply (createPlan_search_first _ _ _ _ _
           (Demo.engine (Facade.PathFound Demo.long_path 13) []));
    vm_compute; reflexivity.
Defined.
